(** * The prompt cache: Redis vector store and semantic cache

    A shallow embedding of [src/redis.ts] (class [RedisVectorStore]),
    [src/cache.ts] (class [PromptCache]) and the [/chat] route of
    [src/index.ts], with the properties of the cache engine proved on it.

    JavaScript numbers are IEEE 754 binary64 values: they are modelled by
    Rocq's primitive floats, whose operations are the same correctly
    rounded ones.  Asynchronous calls are sequential here: every [await]
    is a bind of the state monad [M] below. *)

From Stdlib Require Import ZArith List String Ascii Floats Lia Bool Sorted.
From Stdlib Require Import DecimalString DecimalZ DecimalPos.
From stdpp Require Import base gmap strings list.
Import ListNotations.

Local Open Scope string_scope.
Local Open Scope Z_scope.

(** ** Numbers *)

Module Num.

Definition zero : float := 0%float.

(** [x >= y] of JavaScript: false as soon as one side is NaN. *)
Definition ge (x y : float) : bool := PrimFloat.leb y x.

(** [x > y]. *)
Definition gt (x y : float) : bool := PrimFloat.ltb y x.

(** [x === y] on numbers: NaN differs from everything, [-0 === 0]. *)
Definition strict_eq (x y : float) : bool := PrimFloat.eqb x y.

(** A number that is not NaN, and one that is neither NaN nor infinite. *)
Definition not_nan (x : float) : Prop := Prim2SF x <> S754_nan.

Definition finite (x : float) : bool :=
  match Prim2SF x with
  | S754_zero _ | S754_finite _ _ _ => true
  | _ => false
  end.


(** The order of the numbers that are not NaN, read off their
    representation: the rank grows with the number, and two numbers have
    the same rank exactly when [===] holds of them. *)
Definition magnitude (m : positive) (e : Z) : Z := (e + 1075) * 2 ^ 53 + Z.pos m.

Definition spec_rank (x : spec_float) : Z :=
  match x with
  | S754_zero _ => 0
  | S754_infinity s => cond_Zopp s (2047 * 2 ^ 53)
  | S754_nan => 0
  | S754_finite s m e => cond_Zopp s (magnitude m e)
  end.

Definition rank (x : float) : Z := spec_rank (Prim2SF x).

(** The results of rounding a positive quantity. *)
Definition positive_result (r : spec_float) : Prop :=
  match r with
  | S754_finite false _ _ | S754_infinity false => True
  | _ => False
  end.

End Num.

(** ** [types.ts] *)

Record CachedEntry := mkEntry {
  prompt : string;
  embedding : list float;
  response : string;
  timestamp : Z;
  model : string
}.

Record VectorSearchResult := mkResult {
  id : string;
  score : float;
  data : CachedEntry
}.

(** The part of [Env] that is a plain value; the bindings [AI] and
    [CACHE_STATS] and the Redis endpoint are services of the world below. *)
Record Env := mkEnv {
  SIMILARITY_THRESHOLD : option string
}.

Record ChatRequest := mkRequest {
  req_prompt : option string;
  req_model : option string;
  req_max_tokens : option Z;
  req_temperature : option float
}.

Record ChatResponse := mkChat {
  chat_response : string;
  cached : bool;
  chat_similarity : option float;
  chat_timestamp : Z
}.

Inductive Response :=
  | JsonChat (status : Z) (body : ChatResponse)
  | JsonError (status : Z) (error : string) (details : option string).

(** ** [RedisVectorStore.cosineSimilarity] *)

(** One turn of the [for] loop: the three running sums. *)
Definition cosine_step (acc : float * float * float) (xy : float * float)
  : float * float * float :=
  let '(dotProduct, normA, normB) := acc in
  let '(x, y) := xy in
  (PrimFloat.add dotProduct (PrimFloat.mul x y),
   PrimFloat.add normA (PrimFloat.mul x x),
   PrimFloat.add normB (PrimFloat.mul y y)).

Definition cosine_sums (a b : list float) : float * float * float :=
  fold_left cosine_step (combine a b) (Num.zero, Num.zero, Num.zero).

(** The sums the loop computes, each on its own. *)
Definition dot_product (a b : list float) : float :=
  fold_left (fun d xy => PrimFloat.add d (PrimFloat.mul (fst xy) (snd xy))) (combine a b) Num.zero.

Definition sum_squares (v : list float) : float :=
  fold_left (fun n x => PrimFloat.add n (PrimFloat.mul x x)) v Num.zero.

Definition cosineSimilarity (a b : list float) : float :=
  if negb (Nat.eqb (length a) (length b)) then Num.zero
  else
    let '(dotProduct, normA, normB) := cosine_sums a b in
    let denominator := PrimFloat.mul (PrimFloat.sqrt normA) (PrimFloat.sqrt normB) in
    if Num.strict_eq denominator Num.zero then Num.zero
    else PrimFloat.div dotProduct denominator.

(** ** [Array.prototype.sort] and [Array.prototype.slice]

    [sort] is stable, and its result is fixed by the comparator whenever
    the comparator is a consistent ordering: it is the list obtained by
    inserting the elements one by one, last to first, each before the
    first element it does not sort after.  [x] sorts after [y] when
    [compareFn x y > 0]; a NaN from the comparator counts as [+0].  The
    comparator of [searchSimilar] is consistent on the matches it sorts,
    whose scores are never NaN ([sorts_after_by_score] below). *)

Section ArraySort.
Context {A : Type}.
Variable compareFn : A -> A -> float.

Definition sorts_after (x y : A) : bool := Num.gt (compareFn x y) Num.zero.

Fixpoint sort_insert (x : A) (l : list A) : list A :=
  match l with
  | [] => [x]
  | y :: l' => if sorts_after x y then y :: sort_insert x l' else x :: l
  end.

Definition Array_sort (l : list A) : list A := fold_right sort_insert [] l.

End ArraySort.

(** [l.slice(0, end)]: a negative [end] counts from the end of the
    array.  [slice] truncates its argument to an integer first (NaN to
    0), so integers stand for every [end]. *)
Definition Array_slice0 {A : Type} (l : list A) (end_ : Z) : list A :=
  let len := Z.of_nat (length l) in
  let final := if end_ <? 0 then Z.max (len + end_) 0 else Z.min end_ len in
  firstn (Z.to_nat final) l.

(** ** The world the worker runs in

    The worker talks to three services: the Upstash Redis database behind
    its REST endpoint, the Workers AI binding [env.AI] and the KV
    namespace [env.CACHE_STATS].  It also reads the clock. *)

Inductive exn :=
  | RedisError (statusText : string)   (* thrown by [execute] *)
  | SyntaxError                        (* thrown by [JSON.parse] *)
  | AiError (message : string).        (* thrown by [env.AI.run] *)

Inductive outcome (A : Type) :=
  | Returned (a : A)
  | Thrown (e : exn).
Arguments Returned {A} a.
Arguments Thrown {A} e.

(** A call of [env.AI.run]: on the embedding model with [{ text }], or on
    a text model with [{ messages, max_tokens, temperature }]. *)
Inductive ai_call :=
  | EmbedCall (model_ text : string)
  | ChatCall (model_ prompt_ : string).

Record World := mkWorld {
  redis : gmap string string;        (* key -> JSON text *)
  redis_status : option string;      (* [Some statusText]: the endpoint answers with a non-ok status *)
  CACHE_STATS : gmap string string;
  ai_calls : list ai_call;           (* every [AI.run] so far, oldest first *)
  clock : Z                          (* what [Date.now()] reads *)
}.

Definition M (A : Type) : Type := World -> outcome A * World.

Definition ret {A} (a : A) : M A := fun w => (Returned a, w).

Definition throw {A} (e : exn) : M A := fun w => (Thrown e, w).

Definition bind {A B} (m : M A) (k : A -> M B) : M B :=
  fun w =>
    match m w with
    | (Returned a, w') => k a w'
    | (Thrown e, w') => (Thrown e, w')
    end.

(** [try { body } catch (e) { handler }] *)
Definition try_catch {A} (body : M A) (handler : exn -> M A) : M A :=
  fun w =>
    match body w with
    | (Returned a, w') => (Returned a, w')
    | (Thrown e, w') => handler e w'
    end.

Notation "'let*' x ':=' m 'in' k" := (bind m (fun x => k))
  (at level 10, x pattern, m at level 100, k at level 200).

Definition Date_now : M Z := fun w => (Returned (clock w), w).

Definition with_redis (f : gmap string string -> gmap string string) (w : World) : World :=
  mkWorld (f (redis w)) (redis_status w) (CACHE_STATS w) (ai_calls w) (clock w).

Definition with_stats (f : gmap string string -> gmap string string) (w : World) : World :=
  mkWorld (redis w) (redis_status w) (f (CACHE_STATS w)) (ai_calls w) (clock w).

Definition with_ai_call (c : ai_call) (w : World) : World :=
  mkWorld (redis w) (redis_status w) (CACHE_STATS w) (ai_calls w ++ [c])%list (clock w).

(** ** Redis commands *)

Inductive command :=
  | KEYS (pattern : string)
  | JSON_GET (key : string)
  | JSON_SET (key path value : string).

Inductive reply :=
  | Keys (keys : list string)
  | Bulk (text : option string)   (* [None] is the null reply *)
  | Ok.

(** The glob patterns of [KEYS], as far as the worker uses them: literal
    characters and a closing [*]. *)
Fixpoint glob (pattern s : string) : bool :=
  match pattern with
  | EmptyString => match s with EmptyString => true | _ => false end
  | String c pattern' =>
      if (Ascii.eqb c "*" && String.eqb pattern' EmptyString)%bool then true
      else
        match s with
        | EmptyString => false
        | String d s' => (Ascii.eqb c d && glob pattern' s')%bool
        end
  end.


(** ** Example services

    Concrete services for the examples: two enumeration orders of the
    keyspace, a JSON codec given by the finite table of the documents an
    example uses, an embedding model given by a table, and the clock of
    an empty database. *)

Definition keyspace_of (db : gmap string string) : list string :=
  map fst (map_to_list db).

Definition keyspace_rev (db : gmap string string) : list string :=
  rev (keyspace_of db).

Fixpoint floats_eqb (u v : list float) : bool :=
  match u, v with
  | [], [] => true
  | x :: u', y :: v' => (PrimFloat.Leibniz.eqb x y && floats_eqb u' v')%bool
  | _, _ => false
  end.

Definition entry_eqb (a b : CachedEntry) : bool :=
  (String.eqb (prompt a) (prompt b) && floats_eqb (embedding a) (embedding b)
   && String.eqb (response a) (response b) && (timestamp a =? timestamp b)
   && String.eqb (model a) (model b))%bool.

Definition table_stringify (docs : list (string * CachedEntry)) (e : CachedEntry) : string :=
  match find (fun d => entry_eqb (snd d) e) docs with
  | Some d => fst d
  | None => "null"
  end.

Definition table_parse (docs : list (string * CachedEntry)) (text : string) : option CachedEntry :=
  option_map snd (find (fun d => String.eqb (fst d) text) docs).

Definition table_embedding (table : list (string * list float)) (text : string)
  : outcome (list float) :=
  match find (fun d => String.eqb (fst d) text) table with
  | Some d => Returned (snd d)
  | None => Thrown (AiError "embedding model unavailable")
  end.

Definition canned_text (answer : string) (model_ prompt_ : string) (maxTokens : Z)
    (temperature : float) : outcome string :=
  Returned answer.

Definition parseFloat_of (text : string) : float :=
  if String.eqb text "0.85" then 0x1.b333333333333p-1%float
  else if String.eqb text "1" then 1%float
  else if String.eqb text "0" then 0%float
  else nan.

Definition started_at (t : Z) : World := mkWorld ∅ None ∅ [] t.

Definition LLAMA : string := "@cf/meta/llama-2-7b-chat-int8".

Definition france : string := "What is the capital of France?".

Definition paris_at (t : Z) : CachedEntry :=
  mkEntry france [1%float; 0%float; 0%float] "Paris" t LLAMA.

Definition rome : CachedEntry :=
  mkEntry "What is the capital of Italy?" [0%float; 1%float; 0%float] "Rome" 1700000000000 LLAMA.

Definition lyon : CachedEntry :=
  mkEntry france [1%float; 0%float; 0%float] "Lyon" 1600000000000 LLAMA.

Definition short_entry : CachedEntry :=
  mkEntry "short" [1%float; 0%float] "two coordinates" 1700000000000 LLAMA.

Definition empty_entry : CachedEntry :=
  mkEntry "empty" [] "no coordinates" 1700000000000 LLAMA.

Definition two_capitals : World :=
  mkWorld (<["cache:rome" := "{rome}"]> (<["cache:paris" := "{paris}"]> ∅)) None ∅ [] 1700000000000.

(** The same with a document that is not JSON. *)
Definition with_broken_document : World :=
  with_redis (insert "cache:broken" "{not json") two_capitals.

(** Two records of one question. *)
Definition twice_france : World :=
  mkWorld (<["cache:a" := "{paris}"]> (<["cache:b" := "{paris}"]> ∅)) None ∅ [] 1700000000000.

(** Rome alone. *)
Definition only_rome : World :=
  mkWorld {["cache:rome" := "{rome}"]} None ∅ [] 1700000000000.

(** The question was answered once before, with another response. *)
Definition asked_before : World :=
  mkWorld {["cache:1096944988_1600000000000" := "{lyon}"]} None ∅ [] 1700000000000.


Definition example_embeddings : list (string * list float) :=
  [ (france, [1%float; 0%float; 0%float]);
    ("What is the capital of Italy?", [0%float; 1%float; 0%float]);
    ("zero", [0%float; 0%float; 0%float]);
    ("hi", [1%float; 1%float]);
    ("empty", []);
    ("not a number", [nan; 1%float; 0%float]) ].

Definition example_documents : list (string * CachedEntry) :=
  [ ("{paris}", paris_at 1700000000000);
    ("{rome}", rome);
    ("{lyon}", lyon);
    ("{short}", short_entry);
    ("{empty}", empty_entry);
    ("{zero}", mkEntry "zero" [0%float; 0%float; 0%float] "nothing" 1700000000000 LLAMA);
    ("{hi}", mkEntry "hi" [1%float; 1%float] "hello" 1700000000000 LLAMA) ].

(** ** [index.ts]: the types of the gateway *)

(** The fields of [Env] that configure the AI Gateway and the providers. *)
Record GatewayEnv := mkGatewayEnv {
  GATEWAY_ACCOUNT_ID : option string;
  GATEWAY_NAME : option string;
  CF_GATEWAY_TOKEN : option string;
  ANTHROPIC_API_KEY : option string;
  OPENAI_API_KEY : option string;
  GOOGLE_AI_STUDIO_TOKEN : option string
}.

(** What [getModelConfig] returns. *)
Record ModelConfig := mkConfig {
  isWorkersAI : bool;
  provider : option string;
  apiKey : option string
}.

(** The call an SDK of a provider is given: the base URL and the key of
    the client, and the fields of the request. *)
Inductive ProviderRequest :=
  | GoogleGenerate (baseUrl apiKey_ modelName prompt_ : string)
  | AnthropicCreate (baseURL apiKey_ modelName prompt_ : string) (max_tokens : Z)
      (temperature : float)
  | OpenAICreate (baseURL apiKey_ : string) (gatewayAuthorization : option string)
      (modelName prompt_ : string) (max_completion_tokens : Z).

(** A plain [Error] with a message: like the errors of the binding, it
    carries a message and nothing else the worker reads. *)
Definition Error (message : string) : exn := AiError message.

(** [s.startsWith(prefix)] and [s.slice(n)]. *)
Definition startsWith (s prefix : string) : bool := String.prefix prefix s.

Fixpoint slice_from (n : nat) (s : string) : string :=
  match n, s with
  | O, _ => s
  | S n', String _ s' => slice_from n' s'
  | S _, EmptyString => EmptyString
  end.

(** A string that is there and not empty. *)
Definition truthy (s : option string) : bool :=
  match s with
  | Some s' => negb (String.eqb s' "")
  | None => false
  end.

(** *** [getModelConfig] *)
Definition getModelConfig (model_ : string) (env : GatewayEnv) : ModelConfig :=
  if startsWith model_ "@cf/" then mkConfig true None None
  else if (startsWith model_ "anthropic/" || startsWith model_ "claude-")%bool
  then mkConfig false (Some "anthropic") (ANTHROPIC_API_KEY env)
  else if (startsWith model_ "openai/" || startsWith model_ "gpt-")%bool
  then mkConfig false (Some "openai") (OPENAI_API_KEY env)
  else if (startsWith model_ "google/" || startsWith model_ "gemini-")%bool
  then mkConfig false (Some "google") (GOOGLE_AI_STUDIO_TOKEN env)
  else mkConfig true None None.

Definition GATEWAY_HOST : string := "https://gateway.ai.cloudflare.com".

(** [`/v1/${env.GATEWAY_ACCOUNT_ID}/${env.GATEWAY_NAME}/${last}`] *)
Definition endpoint (account name last : string) : string :=
  "/v1/" +:+ account +:+ "/" +:+ name +:+ "/" +:+ last.

(** The model names the SDKs are given. *)
Definition google_model_name (model_ : string) : string :=
  if startsWith model_ "google/" then slice_from 7 model_ else model_.

Definition anthropic_model_name (model_ : string) : string :=
  if startsWith model_ "anthropic/" then slice_from 10 model_ else model_.

Definition openai_model_name (model_ : string) : string :=
  if startsWith model_ "openai/" then model_ else "openai/" +:+ model_.

(** ** Further example services and worlds *)

(** An embedding model that gives every text the same vector. *)
Definition constant_embedding (q : list float) (text : string) : outcome (list float) :=
  Returned q.

(** A text model that fails. *)
Definition failing_text (message : string) (model_ prompt_ : string) (maxTokens : Z)
    (temperature : float) : outcome string :=
  Thrown (AiError message).

(** A binding that runs a text model the same whatever the gateway. *)
Definition canned_run (answer : string) (gateway : option string) (model_ prompt_ : string)
    (maxTokens : Z) (temperature : float) : outcome string :=
  Returned answer.

(** A provider that answers with the model name it was asked for. *)
Definition echo_provider (request : ProviderRequest) : outcome string :=
  match request with
  | GoogleGenerate _ _ modelName _ => Returned modelName
  | AnthropicCreate _ _ modelName _ _ _ => Returned modelName
  | OpenAICreate _ _ _ modelName _ _ => Returned modelName
  end.

(** No gateway and no provider key; and a gateway with a key for Anthropic. *)
Definition no_gateway : GatewayEnv := mkGatewayEnv None None None None None None.

Definition anthropic_gateway : GatewayEnv :=
  mkGatewayEnv (Some "acct") (Some "gw") None (Some "sk-ant") None None.

Definition HAIKU : string := "claude-3-haiku".

(** An engine for the examples, whose counters are small: past the safe
    integers it answers with the numeral of [2 ^ 53], as the successors of
    [2 ^ 53 - 1] and of [2 ^ 53] are printed. *)
Definition stuck_counter (z : Z) : string := "9007199254740992".

(** A database of another application: no key starts with [cache:]. *)
Definition other_tenant : World :=
  mkWorld {["session:1" := "{paris}"]} None ∅ [] 1700000000000.

Section Worker.

(** Redis enumerates its keyspace in an order of its own ([KEYS] promises
    none): any enumeration of the keys present. *)
Variable keyspace : gmap string string -> list string.
Definition enumerates : Prop :=
  forall (db : gmap string string) (k : string), In k (keyspace db) <-> is_Some (db !! k).

(** [JSON.stringify] on a [CachedEntry], and [JSON.parse] followed by the
    reads of the fields: [None] when the text is not JSON or is not an
    entry, which makes the [try] block of [searchSimilar] throw. *)
Variable JSON_stringify : CachedEntry -> string.
Variable JSON_parse : string -> option CachedEntry.

(** The Workers AI binding: [run] on the embedding model, projected to
    [response.data[0]], and [run] on a text model, projected to the
    response text. *)
Variable AI_embedding : string -> outcome (list float).
Variable AI_text : string -> string -> Z -> float -> outcome string.

(** *** [RedisVectorStore.execute] *)
Definition execute (c : command) : M reply :=
  fun w =>
    match redis_status w with
    | Some statusText => (Thrown (RedisError statusText), w)
    | None =>
        match c with
        | KEYS pattern => (Returned (Keys (List.filter (glob pattern) (keyspace (redis w)))), w)
        | JSON_GET key => (Returned (Bulk (redis w !! key)), w)
        | JSON_SET key _ value => (Returned Ok, with_redis (insert key value) w)
        end
    end.

(** *** [RedisVectorStore.store] *)
Definition store (id_ : string) (entry : CachedEntry) : M unit :=
  let* _ := execute (JSON_SET ("cache:" +:+ id_) "$" (JSON_stringify entry)) in
  ret tt.

(** *** [RedisVectorStore.searchSimilar] *)

(** The body of the [for] loop for one key, [results] being the array
    built so far. *)
Definition search_key (embedding_ : list float) (threshold : float)
    (results : list VectorSearchResult) (key : string) : M (list VectorSearchResult) :=
  try_catch
    (let* r := execute (JSON_GET key) in
     match r with
     | Bulk (Some entryJson) =>
         if String.eqb entryJson "" then ret results
         else
           match JSON_parse entryJson with
           | None => throw SyntaxError
           | Some entry =>
               let similarity := cosineSimilarity embedding_ (embedding entry) in
               if Num.ge similarity threshold
               then ret (results ++ [mkResult key similarity entry])%list
               else ret results
           end
     | _ => ret results
     end)
    (fun _ => ret results).

Fixpoint search_keys (embedding_ : list float) (threshold : float)
    (results : list VectorSearchResult) (keys : list string) : M (list VectorSearchResult) :=
  match keys with
  | [] => ret results
  | key :: keys' =>
      let* results' := search_key embedding_ threshold results key in
      search_keys embedding_ threshold results' keys'
  end.

(** The comparator [(a, b) => b.score - a.score]. *)
Definition by_score (a b : VectorSearchResult) : float := PrimFloat.sub (score b) (score a).

(** The default of the parameter [limit: number = 1]; [None] when the
    caller leaves it out. *)
Definition limit_or_default (limit : option Z) : Z :=
  match limit with
  | Some n => n
  | None => 1
  end.

Definition searchSimilar (embedding_ : list float) (threshold : float) (limit : option Z)
  : M (list VectorSearchResult) :=
  let limit := limit_or_default limit in
  let* r := execute (KEYS "cache:*") in
  match r with
  | Keys [] => ret []
  | Keys keys =>
      let* results := search_keys embedding_ threshold [] keys in
      ret (Array_slice0 (Array_sort by_score results) limit)
  | _ => ret []
  end.

(** *** [RedisVectorStore.getCacheSize] *)
Definition getCacheSize : M Z :=
  let* r := execute (KEYS "cache:*") in
  match r with
  | Keys keys => ret (Z.of_nat (length keys))
  | _ => ret 0
  end.

(** ** [cache.ts]: class [PromptCache] *)

Record PromptCache := mkPromptCache {
  similarityThreshold : float
}.

Record CacheLookup := mkLookup {
  entry : CachedEntry;
  similarity : float
}.

(** [parseFloat], a library function. *)
Variable parseFloat : string -> float.

(** [s || d] on strings: the empty string is falsy. *)
Definition or_default (s : option string) (d : string) : string :=
  match s with
  | Some s' => if String.eqb s' "" then d else s'
  | None => d
  end.

Definition PromptCache_new (env : Env) : PromptCache :=
  mkPromptCache (parseFloat (or_default (SIMILARITY_THRESHOLD env) "0.85")).

Definition EMBEDDING_MODEL : string := "@cf/google/embeddinggemma-300m".

(** *** [PromptCache.generateEmbedding] *)
Definition generateEmbedding (text : string) : M (list float) :=
  fun w => (AI_embedding text, with_ai_call (EmbedCall EMBEDDING_MODEL text) w).

(** *** [PromptCache.findSimilarCache]: [None] is [null]. *)
Definition findSimilarCache (cache : PromptCache) (prompt_ : string) : M (option CacheLookup) :=
  let* embedding_ := generateEmbedding prompt_ in
  let* results := searchSimilar embedding_ (similarityThreshold cache) (Some 1) in
  match results with
  | [] => ret None
  | best :: _ => ret (Some (mkLookup (data best) (score best)))
  end.

(** *** [PromptCache.generateId] *)

(** [ToInt32]: the value modulo [2^32], read as a signed 32-bit integer. *)
Definition ToInt32 (z : Z) : Z :=
  let m := z mod 2 ^ 32 in
  if m <? 2 ^ 31 then m else m - 2 ^ 32.

(** Strings are taken with one byte per code unit. *)
Definition charCode (c : ascii) : Z := Z.of_nat (nat_of_ascii c).

(** One turn of the loop: [hash = (hash << 5) - hash + char; hash = hash & hash]. *)
Definition hash_step (hash : Z) (c : ascii) : Z :=
  ToInt32 (ToInt32 (Z.shiftl (ToInt32 hash) 5) - hash + charCode c).

Definition hash_of (s : string) : Z := fold_left hash_step (list_ascii_of_string s) 0.

(** The decimal numeral of an integer, as a template literal prints it. *)
Definition decimal (z : Z) : string := NilZero.string_of_int (Z.to_int z).

Definition generateId (prompt_ : string) : M string :=
  let* t := Date_now in
  ret (decimal (Z.abs (hash_of prompt_)) +:+ "_" +:+ decimal t).

(** *** [PromptCache.cacheResponse] *)
Definition cacheResponse (prompt_ response_ model_ : string) : M unit :=
  let* embedding_ := generateEmbedding prompt_ in
  let* t := Date_now in
  let entry_ := mkEntry prompt_ embedding_ response_ t model_ in
  let* id_ := generateId prompt_ in
  store id_ entry_.

(** *** [PromptCache.getStats] *)
Definition getStats : M Z := getCacheSize.

(** ** [index.ts]: the [/chat] route *)

(** [error.message] *)
Definition message_of (e : exn) : string :=
  match e with
  | RedisError statusText => "Redis error: " +:+ statusText
  | SyntaxError => "Unexpected token in JSON"
  | AiError m => m
  end.

(** [parseInt(s)], called with no radix.  Leading white space is dropped
    (with one byte per code unit: TAB, LF, VT, FF, CR, SP and NBSP), a sign
    is read, [0x] or [0X] announces base 16, and the longest run of digits
    of the base is the value; what follows the digits is ignored, and a
    string with no digit there gives NaN, which is [None].  The value kept
    here is the integer the digits denote, with its sign; the number
    [parseInt] returns is the double nearest to it. *)
Definition is_blank (c : ascii) : bool :=
  let n := Z.of_nat (nat_of_ascii c) in
  ((9 <=? n) && (n <=? 13) || (n =? 32) || (n =? 160))%bool.

Fixpoint trim_start (s : string) : string :=
  match s with
  | String c s' => if is_blank c then trim_start s' else s
  | EmptyString => EmptyString
  end.

(** The value of [c] as a digit of the base: [0] to [9], then the
    letters of either case from 10 on. *)
Definition digit_of (radix : Z) (c : ascii) : option Z :=
  let n := Z.of_nat (nat_of_ascii c) in
  let d := if ((48 <=? n) && (n <=? 57))%bool then n - 48
           else if ((97 <=? n) && (n <=? 122))%bool then n - 87
           else if ((65 <=? n) && (n <=? 90))%bool then n - 55
           else radix in
  if d <? radix then Some d else None.

Fixpoint digits_from (radix : Z) (s : string) (value : Z) : Z :=
  match s with
  | String c s' =>
      match digit_of radix c with
      | Some d => digits_from radix s' (value * radix + d)
      | None => value
      end
  | EmptyString => value
  end.

Definition leading_digits (radix : Z) (s : string) : option Z :=
  match s with
  | String c _ =>
      match digit_of radix c with
      | Some _ => Some (digits_from radix s 0)
      | None => None
      end
  | EmptyString => None
  end.

Definition unsigned_prefix (s : string) : option Z :=
  match s with
  | String "0" (String "x" rest) | String "0" (String "X" rest) => leading_digits 16 rest
  | _ => leading_digits 10 s
  end.

Definition parseInt (s : string) : option Z :=
  match trim_start s with
  | String "-" rest => option_map Z.opp (unsigned_prefix rest)
  | String "+" rest => unsigned_prefix rest
  | trimmed => unsigned_prefix trimmed
  end.

(** [(n + 1).toString()] for the number [parseInt] returned.  While the
    integer read and its successor are safe integers (of absolute value
    below [2 ^ 53]), both are doubles, the sum is exact and [toString]
    prints it in full.  Beyond, the integer read is rounded to a double,
    the sum is rounded again and the digits printed are the engine's
    choice: [rounded_succ_toString z] stands for what it prints when [z]
    was read. *)
Variable rounded_succ_toString : Z -> string.

Definition succ_toString (n : option Z) : string :=
  match n with
  | Some z =>
      if ((- 2 ^ 53 <=? z) && (z <? 2 ^ 53 - 1))%bool then decimal (z + 1)
      else rounded_succ_toString z
  | None => "NaN"
  end.

Definition KV_get (key : string) : M (option string) :=
  fun w => (Returned (CACHE_STATS w !! key), w).

Definition KV_put (key value : string) : M unit :=
  fun w => (Returned tt, with_stats (insert key value) w).

(** [parseInt((await env.CACHE_STATS.get(key)) || "0")], then the write
    of the successor. *)
Definition bump (key : string) : M unit :=
  let* v := KV_get key in
  KV_put key (succ_toString (parseInt (or_default v "0"))).

(** [env.AI.run(model, { messages, max_tokens, temperature })] with the
    reading of the response text. *)
Definition run_model (model_ prompt_ : string) (maxTokens : Z) (temperature : float) : M string :=
  fun w => (AI_text model_ prompt_ maxTokens temperature, with_ai_call (ChatCall model_ prompt_) w).

(** [body.max_tokens || 256] and [body.temperature || 0.7]: zero and NaN
    are falsy. *)
Definition max_tokens_or_default (n : option Z) : Z :=
  match n with
  | Some z => if z =? 0 then 256 else z
  | None => 256
  end.

Definition temperature_or_default (t : option float) : float :=
  match t with
  | Some x => if (Num.strict_eq x Num.zero || PrimFloat.is_nan x)%bool then 0x1.6666666666666p-1%float else x
  | None => 0x1.6666666666666p-1%float
  end.

Definition chat (env : Env) (body : ChatRequest) : M Response :=
  try_catch
    (match req_prompt body with
     | None => ret (JsonError 400 "Missing required field: prompt" None)
     | Some prompt_ =>
         if String.eqb prompt_ "" then ret (JsonError 400 "Missing required field: prompt" None)
         else
           let model_ := or_default (req_model body) "@cf/meta/llama-2-7b-chat-int8" in
           let maxTokens := max_tokens_or_default (req_max_tokens body) in
           let temperature := temperature_or_default (req_temperature body) in
           let cache := PromptCache_new env in
           let* cachedResult := findSimilarCache cache prompt_ in
           match cachedResult with
           | Some hit =>
               let* _ := bump "hits" in
               let* t := Date_now in
               ret (JsonChat 200 (mkChat (response (entry hit)) true (Some (similarity hit)) t))
           | None =>
               let* _ := bump "misses" in
               let* responseText := run_model model_ prompt_ maxTokens temperature in
               let* _ := cacheResponse prompt_ responseText model_ in
               let* t := Date_now in
               ret (JsonChat 200 (mkChat responseText false None t))
           end
     end)
    (fun e => ret (JsonError 500 "Internal server error" (Some (message_of e)))).

(** ** Reading the search off the database *)

(** What one turn of the loop of [searchSimilar] pushes for [key]. *)
Definition match_of (db : gmap string string) (embedding_ : list float) (threshold : float)
    (key : string) : list VectorSearchResult :=
  match db !! key with
  | Some entryJson =>
      if String.eqb entryJson "" then []
      else
        match JSON_parse entryJson with
        | Some entry =>
            let similarity := cosineSimilarity embedding_ (embedding entry) in
            if Num.ge similarity threshold then [mkResult key similarity entry] else []
        | None => []
        end
  | None => []
  end.

Definition matches (db : gmap string string) (embedding_ : list float) (threshold : float)
    (keys : list string) : list VectorSearchResult :=
  flat_map (match_of db embedding_ threshold) keys.

(** The reply to [KEYS cache:*]. *)
Definition cache_keys (db : gmap string string) : list string :=
  List.filter (glob "cache:*") (keyspace db).

(** The key [cacheResponse] writes for [prompt_] when the clock reads [t]. *)
Definition key_at (prompt_ : string) (t : Z) : string :=
  "cache:" +:+ (decimal (Z.abs (hash_of prompt_)) +:+ "_" +:+ decimal t).

(** What [findSimilarCache] answers from the results of the search. *)
Definition best_of (results : list VectorSearchResult) : option CacheLookup :=
  match results with
  | [] => None
  | best :: _ => Some (mkLookup (data best) (score best))
  end.

(** The value an operation returns, [None] when it throws. *)
Definition returned {A} (r : outcome A * World) : option A :=
  match fst r with
  | Returned a => Some a
  | Thrown _ => None
  end.

(** Descending order of the scores. *)
Definition descending (a b : VectorSearchResult) : Prop := Num.ge (score a) (score b) = true.

(** A match whose score is a number. *)
Definition scored (r : VectorSearchResult) : Prop := Num.not_nan (score r).

(** The matches whose score is [===] to [c]. *)
Definition with_score (c : float) (l : list VectorSearchResult) : list VectorSearchResult :=
  List.filter (fun r => Num.strict_eq (score r) c) l.

(** How often the embedding model was run on [text]. *)
Definition embeds (text : string) (c : ai_call) : bool :=
  match c with
  | EmbedCall _ text' => String.eqb text' text
  | ChatCall _ _ => false
  end.

Definition embedding_calls (text : string) (w : World) : nat :=
  length (List.filter (embeds text) (ai_calls w)).

(** The world after [n] lookups of the same prompt in a row. *)
Fixpoint lookups (cache : PromptCache) (prompt_ : string) (n : nat) (w : World) : World :=
  match n with
  | O => w
  | S n' => lookups cache prompt_ n' (snd (findSimilarCache cache prompt_ w))
  end.

(** ** Further notions for the properties below *)

(** A vector of unexpected shape: empty, or with a coordinate that is NaN
    or infinite. *)
Definition malformed (q : list float) : bool :=
  match q with
  | [] => true
  | _ => existsb (fun x => negb (Num.finite x)) q
  end.

(** The results of adding squares: NaN or a number whose sign bit is
    clear; and, once a square was NaN or infinite, NaN or [+Infinity]. *)
Definition not_negative (x : spec_float) : Prop :=
  match x with
  | S754_nan | S754_zero false | S754_infinity false | S754_finite false _ _ => True
  | _ => False
  end.

Definition overflowed (x : spec_float) : Prop :=
  match x with
  | S754_nan | S754_infinity false => True
  | _ => False
  end.


(** An enumeration that lists no key twice, as [KEYS] does. *)
Definition enumerates_once : Prop :=
  forall db : gmap string string, List.NoDup (keyspace db).

(** A stored record that the search turns into a match: a prefixed key
    whose document is not empty, decodes, and scores at least the
    threshold against the query. *)
Definition matching_record (db : gmap string string) (q : list float) (t : float)
    (key : string) (e : CachedEntry) : Prop :=
  exists text,
    glob "cache:*" key = true /\ db !! key = Some text /\ text <> "" /\
    JSON_parse text = Some e /\ Num.ge (cosineSimilarity q (embedding e)) t = true.

(** The polynomial the loop of [generateId] evaluates before wrapping:
    each character code added to 31 times what came before. *)
Definition poly31_step (h : Z) (c : ascii) : Z := 31 * h + charCode c.

Definition poly31 (s : string) : Z := fold_left poly31_step (list_ascii_of_string s) 0.

(** A string without the separator of the ids. *)
Definition no_underscore (s : string) : Prop := ~ In "_"%char (list_ascii_of_string s).

(** The status of a response. *)
Definition status_of (r : Response) : Z :=
  match r with
  | JsonChat status _ => status
  | JsonError status _ _ => status
  end.

(** [!body.prompt]: the prompt is missing or empty. *)
Definition prompt_missing (body : ChatRequest) : Prop :=
  req_prompt body = None \/ req_prompt body = Some "".

(** The value [bump] writes for a counter that reads [v]. *)
Definition bumped (v : option string) : string :=
  succ_toString (parseInt (or_default v "0")).


(** ** [index.ts]: [callModelGateway] and the [/chat] route through it *)

(** [env.AI.run(model, inputs, options)] on a text model, [options]
    naming the gateway when there is one, projected to the response text;
    and the call of a provider's SDK, projected to the text it answers. *)
Variable AI_run_text : option string -> string -> string -> Z -> float -> outcome string.
Variable provider_call : ProviderRequest -> outcome string.

Definition or_empty (s : option string) : string :=
  match s with
  | Some s' => s'
  | None => ""
  end.

Definition callModelGateway (model_ prompt_ : string) (maxTokens : Z) (temperature : float)
    (env : GatewayEnv) : M string :=
  let config := getModelConfig model_ env in
  if isWorkersAI config then
    let gateway := if truthy (GATEWAY_NAME env) then GATEWAY_NAME env else None in
    fun w => (AI_run_text gateway model_ prompt_ maxTokens temperature,
              with_ai_call (ChatCall model_ prompt_) w)
  else if negb (truthy (apiKey config)) then
    throw (Error ("API key not configured for provider: " +:+
                  match provider config with Some p => p | None => "undefined" end))
  else if (negb (truthy (GATEWAY_ACCOUNT_ID env)) || negb (truthy (GATEWAY_NAME env)))%bool then
    throw (Error "Gateway configuration missing. Set GATEWAY_ACCOUNT_ID and GATEWAY_NAME.")
  else
    let key := or_empty (apiKey config) in
    let account := or_empty (GATEWAY_ACCOUNT_ID env) in
    let name := or_empty (GATEWAY_NAME env) in
    let request :=
      match provider config with
      | Some "google" =>
          GoogleGenerate (GATEWAY_HOST +:+ endpoint account name "google-ai-studio") key
            (google_model_name model_) prompt_
      | Some "anthropic" =>
          AnthropicCreate (GATEWAY_HOST +:+ endpoint account name "anthropic") key
            (anthropic_model_name model_) prompt_ maxTokens temperature
      | _ =>
          OpenAICreate (GATEWAY_HOST +:+ endpoint account name "compat") key
            (if truthy (CF_GATEWAY_TOKEN env)
             then Some ("Bearer " +:+ or_empty (CF_GATEWAY_TOKEN env)) else None)
            (openai_model_name model_) prompt_ maxTokens
      end in
    fun w => (provider_call request, w).

(** The [/chat] route of [index.ts]: the route above with the model called
    through [callModelGateway]. *)
Definition chat_gateway (env : Env) (genv : GatewayEnv) (body : ChatRequest) : M Response :=
  try_catch
    (match req_prompt body with
     | None => ret (JsonError 400 "Missing required field: prompt" None)
     | Some prompt_ =>
         if String.eqb prompt_ "" then ret (JsonError 400 "Missing required field: prompt" None)
         else
           let model_ := or_default (req_model body) "@cf/meta/llama-2-7b-chat-int8" in
           let maxTokens := max_tokens_or_default (req_max_tokens body) in
           let temperature := temperature_or_default (req_temperature body) in
           let cache := PromptCache_new env in
           let* cachedResult := findSimilarCache cache prompt_ in
           match cachedResult with
           | Some hit =>
               let* _ := bump "hits" in
               let* t := Date_now in
               ret (JsonChat 200 (mkChat (response (entry hit)) true (Some (similarity hit)) t))
           | None =>
               let* _ := bump "misses" in
               let* responseText := callModelGateway model_ prompt_ maxTokens temperature genv in
               let* _ := cacheResponse prompt_ responseText model_ in
               let* t := Date_now in
               ret (JsonChat 200 (mkChat responseText false None t))
           end
     end)
    (fun e => ret (JsonError 500 "Internal server error" (Some (message_of e)))).

(** * Properties *)

(** ** The order of floating-point numbers *)

Lemma digits2_pos_bounds (m : positive) :
  2 ^ (Z.pos (digits2_pos m) - 1) <= Z.pos m < 2 ^ Z.pos (digits2_pos m).
Proof.
  induction m as [m IH | m IH |]; simpl digits2_pos.
  - rewrite Pos2Z.inj_succ.
    replace (Z.succ (Z.pos (digits2_pos m)) - 1) with (Z.succ (Z.pos (digits2_pos m) - 1)) by lia.
    rewrite !Z.pow_succ_r by lia. lia.
  - rewrite Pos2Z.inj_succ.
    replace (Z.succ (Z.pos (digits2_pos m)) - 1) with (Z.succ (Z.pos (digits2_pos m) - 1)) by lia.
    rewrite !Z.pow_succ_r by lia. lia.
  - simpl. lia.
Qed.

Lemma iter_xO_value (m d : positive) : Z.pos (Pos.iter xO m d) = Z.pos m * 2 ^ Z.pos d.
Proof.
  induction d as [| d IH] using Pos.peano_ind.
  - simpl. lia.
  - rewrite Pos.iter_succ, Pos2Z.inj_succ, Z.pow_succ_r by lia.
    rewrite Pos2Z.inj_xO, IH. lia.
Qed.

Lemma shl_align_value (m : positive) (e e' : Z) :
  e' <= e -> Z.pos (fst (shl_align m e e')) = Z.pos m * 2 ^ (e - e').
Proof.
  intros Hle. unfold shl_align.
  destruct (e' - e) as [| p | p] eqn:Hd.
  - replace (e - e') with 0 by lia. simpl. lia.
  - lia.
  - simpl fst. rewrite iter_xO_value. f_equal. f_equal. lia.
Qed.

Lemma shr_1_lower (mrs : shr_record) (c : Z) :
  2 * c <= shr_m mrs -> 0 <= c -> c <= shr_m (shr_1 mrs).
Proof.
  destruct mrs as [m r s]. simpl.
  destruct m as [| [p | p |] | [p | p |]]; simpl; lia.
Qed.

Lemma pow2_xO (p : positive) : 2 ^ Z.pos p~0 = 2 ^ Z.pos p * 2 ^ Z.pos p.
Proof. rewrite <- Z.pow_add_r by lia. f_equal. lia. Qed.

Lemma pow2_xI (p : positive) : 2 ^ Z.pos p~1 = 2 * (2 ^ Z.pos p * 2 ^ Z.pos p).
Proof.
  rewrite <- Z.pow_add_r, <- Z.pow_succ_r by lia. f_equal. lia.
Qed.

Lemma iter_shr_1_lower (p : positive) :
  forall (mrs : shr_record) (c : Z),
    2 ^ Z.pos p * c <= shr_m mrs -> 0 <= c -> c <= shr_m (SpecFloat.iter_pos shr_1 p mrs).
Proof.
  induction p as [p IH | p IH |]; intros mrs c Hm Hc; simpl SpecFloat.iter_pos.
  - rewrite pow2_xI in Hm.
    assert (0 < 2 ^ Z.pos p) by (apply Z.pow_pos_nonneg; lia).
    apply IH; [| assumption]. apply IH; [| nia].
    apply shr_1_lower; [| nia]. lia.
  - rewrite pow2_xO in Hm.
    assert (0 < 2 ^ Z.pos p) by (apply Z.pow_pos_nonneg; lia).
    apply IH; [| assumption]. apply IH; [| nia]. lia.
  - apply shr_1_lower; [| assumption]. simpl in Hm. lia.
Qed.

Lemma shr_fexp_positive (m e : Z) (l : location) :
  0 < m -> SpecFloat.emin prec emax <= e ->
  0 < shr_m (fst (shr_fexp prec emax m e l)) /\
  SpecFloat.emin prec emax <= snd (shr_fexp prec emax m e l).
Proof.
  intros Hm He. unfold shr_fexp, shr.
  destruct m as [| m | m]; try lia. simpl Zdigits2.
  pose proof (digits2_pos_bounds m) as [Hlo _].
  unfold fexp, SpecFloat.emin, prec, emax in *.
  destruct (Z.max (Z.pos (digits2_pos m) + e - 53) (3 - 1024 - 53) - e) as [| n | n] eqn:Hn;
    simpl fst; simpl snd.
  - split; [destruct l as [| []]; simpl; lia | lia].
  - split; [| lia].
    assert (H1 : 1 <= shr_m (SpecFloat.iter_pos shr_1 n (shr_record_of_loc (Z.pos m) l))).
    { apply iter_shr_1_lower; [| lia].
      replace (shr_m (shr_record_of_loc (Z.pos m) l)) with (Z.pos m)
        by (destruct l as [| []]; reflexivity).
      assert (Hn' : Z.pos n <= Z.pos (digits2_pos m) - 1) by lia.
      pose proof (Z.pow_le_mono_r 2 _ _ ltac:(lia) Hn'). lia. }
    lia.
  - split; [destruct l as [| []]; simpl; lia | lia].
Qed.

Lemma round_nearest_even_positive (m : Z) (l : location) :
  0 < m -> 0 < round_nearest_even m l.
Proof.
  intros Hm. destruct l as [| []]; simpl; try lia.
  destruct (Z.even m); lia.
Qed.

Lemma binary_round_aux_positive (m e : Z) (l : location) :
  0 < m -> SpecFloat.emin prec emax <= e ->
  Num.positive_result (binary_round_aux prec emax false m e l).
Proof.
  intros Hm He. unfold binary_round_aux.
  destruct (shr_fexp_positive m e l Hm He) as [H1 H2].
  destruct (shr_fexp prec emax m e l) as [mrs' e'] eqn:E1. simpl in H1, H2.
  pose proof (round_nearest_even_positive (shr_m mrs') (loc_of_shr_record mrs') H1) as H3.
  destruct (shr_fexp_positive _ e' loc_Exact H3 H2) as [H4 _].
  destruct (shr_fexp prec emax _ e' loc_Exact) as [mrs'' e''] eqn:E2. simpl in H4.
  destruct (shr_m mrs'') as [| p | p]; try lia.
  destruct (e'' <=? emax - prec); exact I.
Qed.

Lemma binary_round_positive (m : positive) (e : Z) :
  SpecFloat.emin prec emax <= e -> Num.positive_result (binary_round prec emax false m e).
Proof.
  intros He. unfold binary_round.
  destruct (shl_align m e (fexp prec emax (Z.pos (digits2_pos m) + e))) as [mz ez] eqn:E.
  apply binary_round_aux_positive; [lia |].
  unfold shl_align in E.
  destruct (fexp prec emax (Z.pos (digits2_pos m) + e) - e) eqn:Hd; inversion E; subst; try assumption.
  unfold fexp. lia.
Qed.

Lemma binary_round_aux_negative (m e : Z) (l : location) :
  SFltb (S754_zero false) (binary_round_aux prec emax true m e l) = false.
Proof.
  unfold binary_round_aux.
  destruct (shr_fexp prec emax m e l) as [mrs' e'].
  destruct (shr_fexp prec emax _ e' loc_Exact) as [mrs'' e''].
  destruct (shr_m mrs''); try reflexivity.
  destruct (e'' <=? emax - prec); reflexivity.
Qed.

Lemma positive_result_ltb (r : spec_float) :
  Num.positive_result r -> SFltb (S754_zero false) r = true.
Proof. destruct r as [[] | [] | | [] m e]; simpl; intros H; try contradiction; reflexivity. Qed.


Lemma normalize_sign (m e : Z) :
  SpecFloat.emin prec emax <= e ->
  SFltb (S754_zero false) (binary_normalize prec emax m e false) = (0 <? m).
Proof.
  intros He. destruct m as [| p | p]; simpl binary_normalize.
  - reflexivity.
  - apply positive_result_ltb, binary_round_positive, He.
  - unfold binary_round. destruct (shl_align p e _) as [mz ez].
    apply binary_round_aux_negative.
Qed.

Lemma bounded_shape (m : positive) (e : Z) :
  bounded prec emax m e = true ->
  SpecFloat.emin prec emax <= e /\ Z.pos (digits2_pos m) <= prec /\
  (SpecFloat.emin prec emax < e -> Z.pos (digits2_pos m) = prec).
Proof.
  unfold bounded, canonical_mantissa, fexp, SpecFloat.emin, prec, emax.
  intros H. apply andb_true_iff in H as [H _]. apply Z.eqb_eq in H. lia.
Qed.

Lemma aligned_lt (m1 m2 : positive) (e1 e2 : Z) :
  bounded prec emax m1 e1 = true -> bounded prec emax m2 e2 = true ->
  e1 < e2 -> Z.pos m1 < Z.pos m2 * 2 ^ (e2 - e1).
Proof.
  intros H1 H2 Hlt.
  apply bounded_shape in H1 as (Hmin1 & Hd1 & _).
  apply bounded_shape in H2 as (_ & _ & Hd2).
  specialize (Hd2 ltac:(lia)).
  pose proof (digits2_pos_bounds m1) as [_ Hhi].
  pose proof (digits2_pos_bounds m2) as [Hlo _].
  rewrite Hd2 in Hlo.
  assert (Hp : 2 ^ Z.pos (digits2_pos m1) <= 2 ^ prec) by (apply Z.pow_le_mono_r; lia).
  assert (Hq : 2 ^ 1 <= 2 ^ (e2 - e1)) by (apply Z.pow_le_mono_r; lia).
  assert (Hr : 2 ^ prec = 2 * 2 ^ (prec - 1)) by reflexivity.
  change (2 ^ 1) with 2 in Hq.
  assert (0 < 2 ^ (prec - 1)) by reflexivity.
  nia.
Qed.

Lemma aligned_compare (m1 m2 : positive) (e1 e2 : Z) :
  bounded prec emax m1 e1 = true -> bounded prec emax m2 e2 = true ->
  (Z.pos (fst (shl_align m1 e1 (Z.min e1 e2))) ?= Z.pos (fst (shl_align m2 e2 (Z.min e1 e2)))) =
  match e1 ?= e2 with
  | Lt => Lt
  | Gt => Gt
  | Eq => Pos.compare_cont Eq m1 m2
  end.
Proof.
  intros H1 H2. rewrite !shl_align_value by lia.
  destruct (Z.compare_spec e1 e2) as [Heq | Hlt | Hgt].
  - subst. rewrite Z.min_id, Z.sub_diag. simpl. rewrite !Pos.mul_1_r. reflexivity.
  - rewrite Z.min_l by lia. rewrite Z.sub_diag. change (2 ^ 0) with 1. rewrite Z.mul_1_r.
    apply Z.compare_lt_iff. apply aligned_lt; assumption.
  - rewrite Z.min_r by lia. rewrite Z.sub_diag. change (2 ^ 0) with 1. rewrite Z.mul_1_r.
    apply Z.compare_gt_iff. apply aligned_lt; assumption.
Qed.

(** The sign of a difference is the order of its operands. *)
Lemma SFsub_sign (x y : spec_float) :
  valid_binary x = true -> valid_binary y = true ->
  x <> S754_nan -> y <> S754_nan ->
  SFltb (S754_zero false) (SF64sub y x) = SFltb x y.
Proof.
  intros Vx Vy Nx Ny.
  destruct x as [sx | sx | | sx mx ex]; try congruence;
    destruct y as [sy | sy | | sy my ey]; try congruence;
    try (destruct sx, sy; reflexivity).
  unfold SF64sub, SFsub. simpl in Vx, Vy.
  pose proof (bounded_shape _ _ Vx) as (Hx & _).
  pose proof (bounded_shape _ _ Vy) as (Hy & _).
  rewrite normalize_sign by lia.
  pose proof (aligned_compare mx my ex ey Vx Vy) as Hc.
  rewrite (Z.min_comm ey ex).
  set (MX := Z.pos (fst (shl_align mx ex (Z.min ex ey)))) in *.
  set (MY := Z.pos (fst (shl_align my ey (Z.min ex ey)))) in *.
  assert (0 < MX) by (unfold MX; lia). assert (0 < MY) by (unfold MY; lia).
  unfold SFltb, SFcompare.
  revert Hc.
  destruct sx, sy; unfold cond_Zopp;
    match goal with |- _ -> (0 <? ?d) = _ => destruct (Z.ltb_spec 0 d) end;
    destruct (Z.compare_spec MX MY); destruct (ex ?= ey); simpl; intros Hc;
    reflexivity || discriminate Hc || (exfalso; lia) || (rewrite <- Hc; reflexivity).
Qed.


Lemma magnitude_bounds (m : positive) (e : Z) :
  bounded prec emax m e = true ->
  0 < Num.magnitude m e < 2047 * 2 ^ 53 /\ Z.pos m < 2 ^ 53 /\ -1074 <= e.
Proof.
  intros H. pose proof (bounded_shape m e H) as (Hmin & Hd & _).
  unfold bounded in H. apply andb_true_iff in H as [_ Hmax]. apply Z.leb_le in Hmax.
  pose proof (digits2_pos_bounds m) as [_ Hhi].
  assert (Hp : 2 ^ Z.pos (digits2_pos m) <= 2 ^ prec) by (apply Z.pow_le_mono_r; lia).
  unfold Num.magnitude, SpecFloat.emin, prec, emax in *.
  change (2 ^ 53) with 9007199254740992 in *. lia.
Qed.

Lemma SFcompare_rank (x y : spec_float) :
  valid_binary x = true -> valid_binary y = true ->
  x <> S754_nan -> y <> S754_nan ->
  SFcompare x y = Some (Num.spec_rank x ?= Num.spec_rank y).
Proof.
  intros Vx Vy Nx Ny.
  destruct x as [sx | sx | | sx mx ex]; try congruence;
    destruct y as [sy | sy | | sy my ey]; try congruence;
    simpl in Vx, Vy;
    try (pose proof (magnitude_bounds _ _ Vx) as (Hx1 & Hx2 & Hx3));
    try (pose proof (magnitude_bounds _ _ Vy) as (Hy1 & Hy2 & Hy3));
    unfold SFcompare, Num.spec_rank, cond_Zopp; f_equal; symmetry.
  all: try (destruct sx); try (destruct sy); try reflexivity.
  all: try (apply Z.compare_lt_iff; change (2 ^ 53) with 9007199254740992 in *; lia).
  all: try (apply Z.compare_gt_iff; change (2 ^ 53) with 9007199254740992 in *; lia).
  all: unfold Num.magnitude in *; change (2 ^ 53) with 9007199254740992 in *.
  all: change (Pos.compare_cont Eq mx my) with (Z.pos mx ?= Z.pos my).
  all: destruct (Z.compare_spec ex ey); destruct (Z.compare_spec (Z.pos mx) (Z.pos my)); simpl.
  all: try (apply Z.compare_lt_iff; lia); try (apply Z.compare_gt_iff; lia);
       try (apply Z.compare_eq_iff; lia).
Qed.


Lemma spec_float_nan_dec (x : spec_float) : {x = S754_nan} + {x <> S754_nan}.
Proof. destruct x; (left; reflexivity) || (right; discriminate). Qed.

Lemma SFcompare_nan (x y : spec_float) :
  x = S754_nan \/ y = S754_nan -> SFcompare x y = None.
Proof. intros [-> | ->]; [| destruct x]; reflexivity. Qed.

Ltac by_rank :=
  intros Vx Vy;
  match goal with
  | |- context [SFcompare ?x ?y] =>
      destruct (spec_float_nan_dec x) as [Nx | Nx];
      [rewrite (SFcompare_nan x y (or_introl Nx)); split; [discriminate | tauto] |];
      destruct (spec_float_nan_dec y) as [Ny | Ny];
      [rewrite (SFcompare_nan x y (or_intror Ny)); split; [discriminate | tauto] |];
      rewrite (SFcompare_rank x y Vx Vy Nx Ny);
      destruct (Z.compare_spec (Num.spec_rank x) (Num.spec_rank y));
      (split; [intros H'; try discriminate H'; repeat split; assumption || lia
              | intros (_ & _ & H'); reflexivity || (exfalso; lia)])
  end.

Lemma SFleb_rank (x y : spec_float) :
  valid_binary x = true -> valid_binary y = true ->
  SFleb x y = true <-> x <> S754_nan /\ y <> S754_nan /\ Num.spec_rank x <= Num.spec_rank y.
Proof. unfold SFleb. by_rank. Qed.

Lemma SFltb_rank (x y : spec_float) :
  valid_binary x = true -> valid_binary y = true ->
  SFltb x y = true <-> x <> S754_nan /\ y <> S754_nan /\ Num.spec_rank x < Num.spec_rank y.
Proof. unfold SFltb. by_rank. Qed.

Lemma SFeqb_rank (x y : spec_float) :
  valid_binary x = true -> valid_binary y = true ->
  SFeqb x y = true <-> x <> S754_nan /\ y <> S754_nan /\ Num.spec_rank x = Num.spec_rank y.
Proof. unfold SFeqb. by_rank. Qed.

(** [x >= y], [x > y] and [x === y] in terms of the rank. *)
Lemma ge_rank (x y : float) :
  Num.ge x y = true <-> Num.not_nan x /\ Num.not_nan y /\ Num.rank y <= Num.rank x.
Proof.
  unfold Num.ge, Num.not_nan, Num.rank. rewrite leb_spec.
  rewrite SFleb_rank by apply Prim2SF_valid. tauto.
Qed.

Lemma gt_rank (x y : float) :
  Num.gt x y = true <-> Num.not_nan x /\ Num.not_nan y /\ Num.rank y < Num.rank x.
Proof.
  unfold Num.gt, Num.not_nan, Num.rank. rewrite ltb_spec.
  rewrite SFltb_rank by apply Prim2SF_valid. tauto.
Qed.

Lemma strict_eq_rank (x y : float) :
  Num.strict_eq x y = true <-> Num.not_nan x /\ Num.not_nan y /\ Num.rank x = Num.rank y.
Proof.
  unfold Num.strict_eq, Num.not_nan, Num.rank. rewrite FloatAxioms.eqb_spec.
  apply SFeqb_rank; apply Prim2SF_valid.
Qed.

Lemma ge_not_nan (x y : float) : Num.ge x y = true -> Num.not_nan x.
Proof. intros H. apply ge_rank in H. tauto. Qed.

(** The comparator of the sort: [b - a > 0] exactly when [b > a]. *)
Lemma sub_sign (x y : float) :
  Num.not_nan x -> Num.not_nan y ->
  Num.gt (PrimFloat.sub y x) Num.zero = Num.gt y x.
Proof.
  intros Nx Ny. unfold Num.gt. rewrite !ltb_spec, sub_spec.
  change (Prim2SF Num.zero) with (S754_zero false).
  apply SFsub_sign; auto using Prim2SF_valid.
Qed.

(** ** Zero vectors *)





Lemma cosine_sums_from (a : list float) :
  forall (b : list float) (d na nb : float),
    fold_left cosine_step (combine a b) (d, na, nb) =
    (fold_left (fun d xy => PrimFloat.add d (PrimFloat.mul (fst xy) (snd xy))) (combine a b) d,
     fold_left (fun n x => PrimFloat.add n (PrimFloat.mul x x)) (firstn (length b) a) na,
     fold_left (fun n x => PrimFloat.add n (PrimFloat.mul x x)) (firstn (length a) b) nb).
Proof.
  induction a as [| x a IH]; intros [| y b] d na nb; simpl; try reflexivity.
  apply IH.
Qed.

Lemma cosine_sums_split (a b : list float) :
  length a = length b ->
  cosine_sums a b = (dot_product a b, sum_squares a, sum_squares b).
Proof.
  intros H. unfold cosine_sums, dot_product, sum_squares.
  rewrite cosine_sums_from. rewrite <- H at 1. rewrite H at 2.
  rewrite !firstn_all. reflexivity.
Qed.

(** The two exits of [cosineSimilarity] after the length test. *)
Lemma cosineSimilarity_same_length (a b : list float) :
  length a = length b ->
  cosineSimilarity a b =
  let denominator := PrimFloat.mul (PrimFloat.sqrt (sum_squares a)) (PrimFloat.sqrt (sum_squares b)) in
  if Num.strict_eq denominator Num.zero then Num.zero
  else PrimFloat.div (dot_product a b) denominator.
Proof.
  intros H. unfold cosineSimilarity.
  rewrite (proj2 (Nat.eqb_eq _ _) H). simpl negb. cbv iota.
  rewrite (cosine_sums_split a b H). reflexivity.
Qed.

Lemma cosineSimilarity_length_mismatch (a b : list float) :
  length a <> length b -> cosineSimilarity a b = Num.zero.
Proof.
  intros H. unfold cosineSimilarity.
  rewrite (proj2 (Nat.eqb_neq _ _) H). reflexivity.
Qed.

(** ** Vectors of unexpected shape *)

Lemma binary_round_aux_not_negative (m e : Z) (l : location) :
  not_negative (binary_round_aux prec emax false m e l).
Proof.
  unfold binary_round_aux.
  destruct (shr_fexp prec emax m e l) as [mrs' e'].
  destruct (shr_fexp prec emax _ e' loc_Exact) as [mrs'' e''].
  destruct (shr_m mrs''); try exact I.
  destruct (e'' <=? emax - prec); exact I.
Qed.

Lemma square_not_negative (x : spec_float) : not_negative (SF64mul x x).
Proof.
  destruct x as [[] | [] | | [] m e]; try exact I;
    apply binary_round_aux_not_negative.
Qed.

Lemma square_overflowed (x : spec_float) :
  match x with S754_zero _ | S754_finite _ _ _ => false | _ => true end = true ->
  overflowed (SF64mul x x).
Proof. destruct x as [[] | [] | | [] m e]; try discriminate; intros _; exact I. Qed.

Lemma add_not_negative (x y : spec_float) :
  not_negative x -> not_negative y -> not_negative (SF64add x y).
Proof.
  destruct x as [[] | [] | | [] mx ex]; try contradiction;
    destruct y as [[] | [] | | [] my ey]; try contradiction; intros _ _; try exact I.
  unfold SF64add, SFadd. simpl cond_Zopp.
  set (a := fst (shl_align mx ex (Z.min ex ey))).
  set (b := fst (shl_align my ey (Z.min ex ey))).
  change (Z.pos a + Z.pos b) with (Z.pos (a + b)).
  unfold binary_normalize, binary_round.
  destruct (shl_align (a + b) _ _) as [mz ez].
  apply binary_round_aux_not_negative.
Qed.

Lemma add_overflowed_l (x y : spec_float) :
  overflowed x -> not_negative y -> overflowed (SF64add x y).
Proof.
  destruct x as [[] | [] | | [] mx ex]; try contradiction;
    destruct y as [[] | [] | | [] my ey]; try contradiction; intros _ _; exact I.
Qed.

Lemma add_overflowed_r (x y : spec_float) :
  not_negative x -> overflowed y -> overflowed (SF64add x y).
Proof.
  destruct x as [[] | [] | | [] mx ex]; try contradiction;
    destruct y as [[] | [] | | [] my ey]; try contradiction; intros _ _; exact I.
Qed.

Lemma overflowed_not_negative (x : spec_float) : overflowed x -> not_negative x.
Proof. destruct x as [[] | [] | | [] m e]; try contradiction; intros _; exact I. Qed.

Lemma sum_squares_from_not_negative (v : list float) :
  forall n, not_negative (Prim2SF n) ->
    not_negative (Prim2SF (fold_left (fun n x => PrimFloat.add n (PrimFloat.mul x x)) v n)).
Proof.
  induction v as [| x v IH]; intros n Hn; simpl; [exact Hn |].
  apply IH. rewrite add_spec, mul_spec. apply add_not_negative; [exact Hn |].
  apply square_not_negative.
Qed.

Lemma sum_squares_from_overflowed (v : list float) :
  forall n, overflowed (Prim2SF n) ->
    overflowed (Prim2SF (fold_left (fun n x => PrimFloat.add n (PrimFloat.mul x x)) v n)).
Proof.
  induction v as [| x v IH]; intros n Hn; simpl; [exact Hn |].
  apply IH. rewrite add_spec, mul_spec. apply add_overflowed_l; [exact Hn |].
  apply square_not_negative.
Qed.

Lemma sum_squares_overflowed (v : list float) :
  existsb (fun x => negb (Num.finite x)) v = true -> overflowed (Prim2SF (sum_squares v)).
Proof.
  unfold sum_squares.
  assert (H : forall n, not_negative (Prim2SF n) ->
    existsb (fun x => negb (Num.finite x)) v = true ->
    overflowed (Prim2SF (fold_left (fun n x => PrimFloat.add n (PrimFloat.mul x x)) v n))).
  { induction v as [| x v IH]; intros n Hn Hv; simpl in *; [discriminate |].
    apply orb_true_iff in Hv as [Hx | Hv].
    - apply sum_squares_from_overflowed. rewrite add_spec, mul_spec.
      apply add_overflowed_r; [exact Hn |]. apply square_overflowed.
      unfold Num.finite in Hx. destruct (Prim2SF x); try discriminate; reflexivity.
    - apply IH; [| exact Hv]. rewrite add_spec, mul_spec.
      apply add_not_negative; [exact Hn | apply square_not_negative]. }
  apply H. exact I.
Qed.

(** [x / (sqrt a * sqrt b)] when [a] overflowed. *)
Lemma quotient_by_overflowed (d a b : spec_float) :
  overflowed a ->
  let den := SF64mul (SF64sqrt a) (SF64sqrt b) in
  SFeqb den (S754_zero false) = false /\
  match SF64div d den with
  | S754_nan | S754_zero _ => True
  | _ => False
  end.
Proof.
  intros Ha.
  assert (Hs : overflowed (SF64sqrt a))
    by (destruct a as [[] | [] | | [] m e]; try contradiction; exact I).
  cbv zeta. generalize (SF64sqrt b). intros sb.
  destruct (SF64sqrt a) as [[] | [] | | [] m e]; try contradiction;
    destruct sb as [[] | [] | | [] mb eb]; destruct d as [[] | [] | | [] md ed];
      split; try reflexivity; exact I.
Qed.

Lemma cosine_of_malformed (q b : list float) (t : float) :
  malformed q = true -> Num.gt t Num.zero = true ->
  Num.ge (cosineSimilarity q b) t = false.
Proof.
  intros Hq Ht.
  assert (Hzero : forall x, (Prim2SF x = S754_nan \/ exists s, Prim2SF x = S754_zero s) ->
                            Num.ge x t = false).
  { intros x Hx. destruct (Num.ge x t) eqn:E; [| reflexivity].
    apply ge_rank in E as (Nx & _ & Hr). apply gt_rank in Ht as (_ & _ & Hr').
    destruct Hx as [Hx | [s Hx]]; [contradiction |].
    unfold Num.rank in *. rewrite Hx in Hr.
    change (Prim2SF Num.zero) with (S754_zero false) in Hr'. simpl in *. lia. }
  destruct (Nat.eq_dec (length q) (length b)) as [Hlen | Hlen].
  - destruct q as [| x q'].
    + destruct b; [| discriminate]. apply Hzero. right. exists false. reflexivity.
    + rewrite (cosineSimilarity_same_length _ _ Hlen). cbv zeta.
      pose proof (sum_squares_overflowed (x :: q') Hq) as Ho.
      destruct (quotient_by_overflowed (Prim2SF (dot_product (x :: q') b))
                  (Prim2SF (sum_squares (x :: q'))) (Prim2SF (sum_squares b)) Ho) as [He Hd].
      unfold Num.strict_eq. rewrite FloatAxioms.eqb_spec, mul_spec, !sqrt_spec.
      change (Prim2SF Num.zero) with (S754_zero false). rewrite He.
      apply Hzero. rewrite div_spec, mul_spec, !sqrt_spec.
      destruct (SF64div _ _); try contradiction; eauto.
  - rewrite (cosineSimilarity_length_mismatch _ _ Hlen). apply Hzero. right. exists false.
    reflexivity.
Qed.


(** ** Sorting by score *)

Lemma sort_insert_In {A} (cmp : A -> A -> float) (x y : A) (l : list A) :
  In y (sort_insert cmp x l) <-> y = x \/ In y l.
Proof.
  induction l as [| z l IH]; simpl.
  - intuition.
  - destruct (sorts_after cmp x z); simpl; rewrite ?IH; intuition.
Qed.

Lemma Array_sort_In {A} (cmp : A -> A -> float) (y : A) (l : list A) :
  In y (Array_sort cmp l) <-> In y l.
Proof.
  induction l as [| x l IH]; simpl.
  - tauto.
  - rewrite sort_insert_In, IH. intuition.
Qed.

Lemma Array_slice0_prefix {A} (l : list A) (n : Z) :
  exists k, Array_slice0 l n = firstn k l.
Proof. unfold Array_slice0. eauto. Qed.

Lemma Array_slice0_first {A} (x : A) (l : list A) : Array_slice0 (x :: l) 1 = [x].
Proof.
  unfold Array_slice0. change (1 <? 0) with false. cbv iota.
  replace (Z.min 1 (Z.of_nat (length (x :: l)))) with 1 by (simpl length; lia).
  reflexivity.
Qed.

Lemma Array_slice0_In {A} (l : list A) (n : Z) (y : A) :
  In y (Array_slice0 l n) -> In y l.
Proof.
  destruct (Array_slice0_prefix l n) as [k ->]. intros H.
  rewrite <- (firstn_skipn k l). apply in_or_app. left. exact H.
Qed.

Lemma sorts_after_by_score (x y : VectorSearchResult) :
  scored x -> scored y ->
  sorts_after by_score x y = Num.gt (score y) (score x).
Proof. intros Hx Hy. unfold sorts_after, by_score. apply sub_sign; assumption. Qed.

Lemma descending_trans (x y z : VectorSearchResult) :
  descending x y -> descending y z -> descending x z.
Proof.
  unfold descending. rewrite !ge_rank. intros (? & ? & ?) (? & ? & ?).
  repeat split; assumption || lia.
Qed.

Lemma sort_insert_descending (x : VectorSearchResult) (l : list VectorSearchResult) :
  scored x -> Forall scored l ->
  StronglySorted descending l -> StronglySorted descending (sort_insert by_score x l).
Proof.
  intros Hx Hl Hs. induction Hs as [| y l Hs IH Hy]; simpl.
  - repeat constructor.
  - apply Forall_cons_iff in Hl as [Sy Sl].
    rewrite (sorts_after_by_score x y Hx Sy).
    destruct (Num.gt (score y) (score x)) eqn:Hgt.
    + apply gt_rank in Hgt as (_ & _ & Hlt).
      constructor; [apply IH, Sl |].
      apply List.Forall_forall. intros z Hz. apply sort_insert_In in Hz as [-> | Hz].
      * apply ge_rank. repeat split; try assumption. lia.
      * rewrite List.Forall_forall in Hy. apply Hy, Hz.
    + assert (Hxy : descending x y).
      { apply ge_rank. repeat split; try assumption.
        destruct (Z.lt_ge_cases (Num.rank (score x)) (Num.rank (score y))) as [Hlt | Hge]; [| lia].
        assert (Num.gt (score y) (score x) = true) by (apply gt_rank; auto).
        congruence. }
      constructor; [constructor; assumption |].
      constructor; [assumption |].
      eapply List.Forall_impl; [| exact Hy]. intros z Hz. eapply descending_trans; eassumption.
Qed.

Lemma Array_sort_descending (l : list VectorSearchResult) :
  Forall scored l -> StronglySorted descending (Array_sort by_score l).
Proof.
  induction l as [| x l IH]; intros Hl; simpl.
  - constructor.
  - apply Forall_cons_iff in Hl as [Hx Hl].
    apply sort_insert_descending; [assumption | | apply IH, Hl].
    apply List.Forall_forall. intros y Hy. apply Array_sort_In in Hy.
    rewrite List.Forall_forall in Hl. apply Hl, Hy.
Qed.

Lemma firstn_descending (k : nat) (l : list VectorSearchResult) :
  StronglySorted descending l -> StronglySorted descending (firstn k l).
Proof.
  intros Hs. revert k. induction Hs as [| y l Hs IH Hy]; intros [| k]; simpl; try constructor.
  - apply IH.
  - apply List.Forall_forall. intros z Hz. rewrite List.Forall_forall in Hy. apply Hy.
    rewrite <- (firstn_skipn k l). apply in_or_app. left. exact Hz.
Qed.

(** The sort is stable: the matches of one score stay in the order they
    were pushed in. *)
Lemma sort_insert_with_score (c : float) (x : VectorSearchResult) (l : list VectorSearchResult) :
  scored x -> Forall scored l ->
  with_score c (sort_insert by_score x l) = with_score c (x :: l).
Proof.
  intros Hx Hl. induction l as [| y l IH].
  - reflexivity.
  - apply Forall_cons_iff in Hl as [Sy Sl]. simpl sort_insert.
    rewrite (sorts_after_by_score x y Hx Sy).
    destruct (Num.gt (score y) (score x)) eqn:Hgt; [| reflexivity].
    apply gt_rank in Hgt as (_ & _ & Hlt).
    unfold with_score in *. simpl in *. rewrite (IH Sl).
    destruct (Num.strict_eq (score x) c) eqn:Ex; [| reflexivity].
    destruct (Num.strict_eq (score y) c) eqn:Ey; [| reflexivity].
    apply strict_eq_rank in Ex as (_ & _ & Ex). apply strict_eq_rank in Ey as (_ & _ & Ey).
    exfalso. lia.
Qed.

Lemma Array_sort_stable (c : float) (l : list VectorSearchResult) :
  Forall scored l -> with_score c (Array_sort by_score l) = with_score c l.
Proof.
  induction l as [| x l IH]; intros Hl.
  - reflexivity.
  - apply Forall_cons_iff in Hl as [Hx Hl]. simpl Array_sort.
    rewrite sort_insert_with_score; [| assumption |].
    + unfold with_score in *. simpl. rewrite (IH Hl). reflexivity.
    + apply List.Forall_forall. intros y Hy. apply Array_sort_In in Hy.
      rewrite List.Forall_forall in Hl. apply Hl, Hy.
Qed.

(** A match that outscores all the others comes first. *)
Lemma Array_sort_best (x : VectorSearchResult) (l : list VectorSearchResult) :
  scored x -> In x l ->
  (forall y, In y l -> y = x \/ Num.gt (score x) (score y) = true) ->
  exists rest, Array_sort by_score l = x :: rest.
Proof.
  intros Hx. induction l as [| a l IH]; intros Hin Hall; [contradiction |].
  simpl Array_sort.
  assert (Hirr : Num.gt (score x) (score x) = false).
  { destruct (Num.gt (score x) (score x)) eqn:E; [| reflexivity].
    apply gt_rank in E. lia. }
  destruct (Hall a (or_introl eq_refl)) as [-> | Ha].
  - destruct (Array_sort by_score l) as [| y rest] eqn:Es; [simpl; eauto |].
    assert (Hy : In y l) by (apply (Array_sort_In by_score); rewrite Es; left; reflexivity).
    simpl. destruct (Hall y (or_intror Hy)) as [-> | H].
    + rewrite (sorts_after_by_score x x Hx Hx), Hirr. eauto.
    + apply gt_rank in H as (_ & Ny & Hlt).
      rewrite (sorts_after_by_score x y Hx Ny).
      destruct (Num.gt (score y) (score x)) eqn:Hgt; [| eauto].
      apply gt_rank in Hgt as (_ & _ & Hgt). exfalso. lia.
  - destruct Hin as [-> | Hin]; [congruence |].
    destruct (IH Hin (fun y Hy => Hall y (or_intror Hy))) as [rest ->].
    simpl. pose proof Ha as Ha'. apply gt_rank in Ha' as (_ & Na & _).
    rewrite (sorts_after_by_score a x Na Hx), Ha. eauto.
Qed.

(** ** Running the store operations *)

Lemma search_key_run (q : list float) (t : float) (results : list VectorSearchResult)
    (key : string) (w : World) :
  redis_status w = None ->
  search_key q t results key w = (Returned (results ++ match_of (redis w) q t key)%list, w).
Proof.
  intros Hup. unfold search_key, try_catch, bind, execute, match_of. rewrite Hup.
  destruct (redis w !! key) as [text |]; simpl; [| rewrite app_nil_r; reflexivity].
  destruct (String.eqb text ""); simpl; [rewrite app_nil_r; reflexivity |].
  destruct (JSON_parse text) as [e |]; simpl; [| rewrite app_nil_r; reflexivity].
  destruct (Num.ge (cosineSimilarity q (embedding e)) t); simpl;
    [| rewrite app_nil_r]; reflexivity.
Qed.

Lemma search_keys_run (q : list float) (t : float) (keys : list string) :
  forall (results : list VectorSearchResult) (w : World),
    redis_status w = None ->
    search_keys q t results keys w = (Returned (results ++ matches (redis w) q t keys)%list, w).
Proof.
  induction keys as [| key keys IH]; intros results w Hup; simpl.
  - unfold ret. rewrite app_nil_r. reflexivity.
  - unfold bind. rewrite (search_key_run q t results key w Hup).
    rewrite (IH _ w Hup). rewrite <- app_assoc. reflexivity.
Qed.

(** [searchSimilar] on a reachable database: the matches of the keys in
    the order [KEYS] replied them, sorted and cut. *)
Lemma searchSimilar_run (q : list float) (t : float) (limit : option Z) (w : World) :
  redis_status w = None ->
  searchSimilar q t limit w =
  (Returned (Array_slice0 (Array_sort by_score (matches (redis w) q t (cache_keys (redis w))))
                          (limit_or_default limit)), w).
Proof.
  intros Hup. unfold searchSimilar, bind, execute. rewrite Hup. fold (cache_keys (redis w)).
  destruct (cache_keys (redis w)) as [| key keys] eqn:Ek.
  - unfold ret, Array_slice0. simpl. rewrite firstn_nil. reflexivity.
  - rewrite (search_keys_run q t (key :: keys) [] w Hup). reflexivity.
Qed.

Lemma searchSimilar_down (q : list float) (t : float) (limit : option Z) (w : World)
    (statusText : string) :
  redis_status w = Some statusText ->
  searchSimilar q t limit w = (Thrown (RedisError statusText), w).
Proof. intros Hdown. unfold searchSimilar, bind, execute. rewrite Hdown. reflexivity. Qed.

Lemma searchSimilar_results (q : list float) (t : float) (limit : option Z) (w w' : World)
    (results : list VectorSearchResult) :
  searchSimilar q t limit w = (Returned results, w') ->
  w' = w /\ redis_status w = None /\
  results = Array_slice0 (Array_sort by_score (matches (redis w) q t (cache_keys (redis w))))
                         (limit_or_default limit).
Proof.
  intros H. destruct (redis_status w) as [st |] eqn:Hs.
  - rewrite (searchSimilar_down q t limit w st Hs) in H. discriminate.
  - rewrite (searchSimilar_run q t limit w Hs) in H. inversion H. auto.
Qed.

Lemma match_of_In (db : gmap string string) (q : list float) (t : float) (key : string)
    (r : VectorSearchResult) :
  In r (match_of db q t key) <->
  exists text e,
    db !! key = Some text /\ text <> "" /\ JSON_parse text = Some e /\
    Num.ge (cosineSimilarity q (embedding e)) t = true /\
    r = mkResult key (cosineSimilarity q (embedding e)) e.
Proof.
  unfold match_of. split.
  - destruct (db !! key) as [text |]; [| contradiction].
    destruct (String.eqb_spec text ""); [contradiction |].
    destruct (JSON_parse text) as [e |] eqn:Hparse; [| contradiction].
    destruct (Num.ge _ t) eqn:Hge; [| contradiction].
    intros [<- | []]. exists text, e. repeat split; auto.
  - intros (text & e & -> & Hne & -> & Hge & ->).
    destruct (String.eqb_spec text ""); [contradiction |].
    rewrite Hge. left. reflexivity.
Qed.

Lemma matches_In (db : gmap string string) (q : list float) (t : float) (keys : list string)
    (r : VectorSearchResult) :
  In r (matches db q t keys) <-> exists key, In key keys /\ In r (match_of db q t key).
Proof. unfold matches. apply in_flat_map. Qed.

Lemma matches_scored (db : gmap string string) (q : list float) (t : float) (keys : list string) :
  Forall scored (matches db q t keys).
Proof.
  apply List.Forall_forall. intros r Hr.
  apply matches_In in Hr as (key & _ & Hr).
  apply match_of_In in Hr as (text & e & _ & _ & _ & Hge & ->).
  exact (ge_not_nan _ _ Hge).
Qed.

Lemma glob_literal (c : ascii) (pattern s : string) :
  Ascii.eqb c "*" = false ->
  glob (String c pattern) s = true ->
  exists s', s = String c s' /\ glob pattern s' = true.
Proof.
  intros Hc H. cbn [glob] in H. rewrite Hc in H. cbn [andb] in H.
  destruct s as [| d s']; [discriminate H |].
  apply andb_true_iff in H as [Hd H]. apply Ascii.eqb_eq in Hd. subst d. eauto.
Qed.

(** The keys [KEYS cache:*] replies are the prefixed ones. *)
Lemma glob_cache (key : string) :
  glob "cache:*" key = true <-> exists rest, key = "cache:" +:+ rest.
Proof.
  split.
  - intros H.
    do 6 (apply glob_literal in H as (?k & -> & H); [| reflexivity]).
    eexists. reflexivity.
  - intros [rest ->]. reflexivity.
Qed.

Lemma prefixed_differs (rest : string) : "cache:" +:+ rest <> rest.
Proof.
  intros H. apply (f_equal String.length) in H.
  change (6 + String.length rest = String.length rest)%nat in H. lia.
Qed.

(** ** The search contract *)

(** C2. Threshold filter: whatever the query embedding, the threshold and
    the limit, every match [searchSimilar] returns has a score that is
    [>=] the threshold. *)
Theorem search_keeps_threshold (q : list float) (t : float) (limit : option Z)
    (w w' : World) (results : list VectorSearchResult) :
  searchSimilar q t limit w = (Returned results, w') ->
  forall r, In r results -> Num.ge (score r) t = true.
Proof.
  intros H r Hr. apply searchSimilar_results in H as (_ & _ & ->).
  apply Array_slice0_In, Array_sort_In, matches_In in Hr as (key & _ & Hr).
  apply match_of_In in Hr as (text & e & _ & _ & _ & Hge & ->). exact Hge.
Qed.

Lemma with_score_firstn (c : float) (k : nat) (l : list VectorSearchResult) :
  with_score c l = (with_score c (firstn k l) ++ with_score c (skipn k l))%list.
Proof. unfold with_score. rewrite <- List.filter_app, firstn_skipn. reflexivity. Qed.

(** C3, as the code has it. The sequence [searchSimilar] returns is
    sorted descending by score; the comparator looks at the score alone
    and the sort is stable, so matches of equal score stay in the order in
    which [KEYS] enumerated their keys: for each score, the returned
    matches of that score are the first ones of the enumeration. *)
Theorem search_sorted_by_score (q : list float) (t : float) (limit : option Z)
    (w w' : World) (results : list VectorSearchResult) :
  searchSimilar q t limit w = (Returned results, w') ->
  StronglySorted descending results /\
  forall c, exists later,
    with_score c (matches (redis w) q t (cache_keys (redis w))) =
    (with_score c results ++ later)%list.
Proof.
  intros H. apply searchSimilar_results in H as (_ & _ & ->).
  pose proof (matches_scored (redis w) q t (cache_keys (redis w))) as Hs.
  destruct (Array_slice0_prefix (Array_sort by_score (matches (redis w) q t (cache_keys (redis w))))
              (limit_or_default limit)) as [k ->].
  split.
  - apply firstn_descending, Array_sort_descending, Hs.
  - intros c. rewrite <- (Array_sort_stable c _ Hs).
    rewrite (with_score_firstn c k). eauto.
Qed.

(** C8. Corrupt-record resilience: when the document under [key] does not
    decode, the search still returns; what it returns is what the loop
    gives on the enumeration without [key], so no match carries [key],
    and the match of every record that decodes and reaches the threshold
    is among the sorted matches the result is cut from. *)
Theorem search_skips_corrupt_record (q : list float) (t : float) (limit : option Z)
    (w : World) (key text : string) :
  enumerates ->
  redis_status w = None ->
  redis w !! key = Some text ->
  JSON_parse text = None ->
  let others := List.filter (fun k => negb (String.eqb k key)) (cache_keys (redis w)) in
  let sorted := Array_sort by_score (matches (redis w) q t others) in
  searchSimilar q t limit w = (Returned (Array_slice0 sorted (limit_or_default limit)), w) /\
  (forall r, In r sorted -> id r <> key) /\
  (forall key' text' e,
      redis w !! key' = Some text' -> text' <> "" -> JSON_parse text' = Some e ->
      glob "cache:*" key' = true ->
      Num.ge (cosineSimilarity q (embedding e)) t = true ->
      In (mkResult key' (cosineSimilarity q (embedding e)) e) sorted).
Proof.
  intros Henum Hup Hkey Hbad others sorted.
  assert (Hskip : forall keys,
             matches (redis w) q t keys =
             matches (redis w) q t (List.filter (fun k => negb (String.eqb k key)) keys)).
  { induction keys as [| k keys IH]; [reflexivity |]. simpl.
    destruct (String.eqb_spec k key) as [-> | Hne]; simpl; rewrite IH; [| reflexivity].
    unfold match_of at 1. rewrite Hkey, Hbad.
    destruct (String.eqb text ""); reflexivity. }
  repeat split.
  - rewrite (searchSimilar_run q t limit w Hup). unfold sorted, others.
    rewrite <- Hskip. reflexivity.
  - intros r Hr. apply Array_sort_In, matches_In in Hr as (k & Hk & Hr).
    apply filter_In in Hk as [_ Hk].
    apply match_of_In in Hr as (text' & e & _ & _ & _ & _ & ->). simpl.
    destruct (String.eqb_spec k key); [discriminate | assumption].
  - intros key' text' e Hdoc Hne Hparse Hglob Hge.
    apply Array_sort_In, matches_In. exists key'. split.
    + apply filter_In. split.
      * apply filter_In. split; [| assumption]. apply Henum. rewrite Hdoc. eauto.
      * destruct (String.eqb_spec key' key) as [-> | ]; [congruence | reflexivity].
    + apply match_of_In. exists text', e. auto.
Qed.

(** ** Storing *)

Lemma store_run (id_ : string) (e : CachedEntry) (w : World) :
  redis_status w = None ->
  store id_ e w = (Returned tt, with_redis (insert ("cache:" +:+ id_) (JSON_stringify e)) w).
Proof. intros Hup. unfold store, bind, execute. rewrite Hup. reflexivity. Qed.

Lemma store_down (id_ : string) (e : CachedEntry) (w : World) (statusText : string) :
  redis_status w = Some statusText ->
  store id_ e w = (Thrown (RedisError statusText), w).
Proof. intros Hdown. unfold store, bind, execute. rewrite Hdown. reflexivity. Qed.

(** C6, as the code has it. [store] does not look at the embedding: for
    every record, the empty embedding included, it writes the document
    under ["cache:" + id] and returns; it throws only the error of a
    Redis request that is not answered with ok. *)
Theorem store_writes_every_record (id_ : string) (e : CachedEntry) (w : World) :
  store id_ e w =
  match redis_status w with
  | None => (Returned tt, with_redis (insert ("cache:" +:+ id_) (JSON_stringify e)) w)
  | Some statusText => (Thrown (RedisError statusText), w)
  end.
Proof. destruct (redis_status w) eqn:E; [apply store_down | apply store_run]; exact E. Qed.

(** C10. [store id e] puts the document under the key ["cache:" + id],
    and every result of a later [searchSimilar] carries as its [id] the
    key its document was read from, a key of the form ["cache:" + rest]
    and never the bare [rest]; the match of the stored record, when the
    document decodes and reaches the threshold, carries ["cache:" + id]. *)
Theorem search_reports_prefixed_key (id_ : string) (e : CachedEntry) (w : World) :
  enumerates ->
  redis_status w = None ->
  let w' := snd (store id_ e w) in
  store id_ e w = (Returned tt, w') /\
  redis w' !! ("cache:" +:+ id_) = Some (JSON_stringify e) /\
  "cache:" +:+ id_ <> id_ /\
  forall q t limit results w'',
    searchSimilar q t limit w' = (Returned results, w'') ->
    (forall r, In r results ->
       exists rest text,
         id r = "cache:" +:+ rest /\ id r <> rest /\
         redis w' !! id r = Some text /\ JSON_parse text = Some (data r)) /\
    (JSON_stringify e <> "" -> JSON_parse (JSON_stringify e) = Some e ->
     Num.ge (cosineSimilarity q (embedding e)) t = true ->
     In (mkResult ("cache:" +:+ id_) (cosineSimilarity q (embedding e)) e)
        (Array_sort by_score (matches (redis w') q t (cache_keys (redis w'))))).
Proof.
  intros Henum Hup w'. subst w'. rewrite (store_run id_ e w Hup). simpl.
  split; [reflexivity |]. split; [apply lookup_insert_eq |].
  split; [apply prefixed_differs |].
  intros q t limit results w'' Hrun. split.
  - intros r Hr. apply searchSimilar_results in Hrun as (_ & _ & ->).
    apply Array_slice0_In, Array_sort_In, matches_In in Hr as (key & Hkey & Hr).
    apply match_of_In in Hr as (text & e' & Hdoc & _ & Hparse & _ & ->). simpl.
    apply filter_In in Hkey as [_ Hglob]. apply glob_cache in Hglob as [rest ->].
    exists rest, text. repeat split; auto using prefixed_differs.
  - intros Hne Hparse Hge.
    apply Array_sort_In, matches_In. exists ("cache:" +:+ id_). split.
    + apply filter_In. split.
      * apply Henum. simpl. rewrite lookup_insert_eq. eauto.
      * apply glob_cache. eauto.
    + apply match_of_In. exists (JSON_stringify e), e. simpl.
      rewrite lookup_insert_eq. auto.
Qed.

(** ** Cosine similarity *)



(** ** Lookups *)

Lemma findSimilarCache_embedded (cache : PromptCache) (p : string) (w : World) (q : list float) :
  AI_embedding p = Returned q ->
  findSimilarCache cache p w =
  match redis_status w with
  | None =>
      (Returned (best_of (Array_slice0
                            (Array_sort by_score
                               (matches (redis w) q (similarityThreshold cache) (cache_keys (redis w))))
                            1)),
       with_ai_call (EmbedCall EMBEDDING_MODEL p) w)
  | Some statusText =>
      (Thrown (RedisError statusText), with_ai_call (EmbedCall EMBEDDING_MODEL p) w)
  end.
Proof.
  intros Hq. unfold findSimilarCache, bind, generateEmbedding. rewrite Hq.
  set (w1 := with_ai_call (EmbedCall EMBEDDING_MODEL p) w).
  change (redis w) with (redis w1). change (redis_status w) with (redis_status w1).
  destruct (redis_status w1) as [st |] eqn:Hs.
  - rewrite (searchSimilar_down _ _ _ w1 st Hs). reflexivity.
  - rewrite (searchSimilar_run _ _ _ w1 Hs). change (limit_or_default (Some 1)) with 1.
    destruct (Array_slice0 _ 1); reflexivity.
Qed.

Lemma findSimilarCache_failed (cache : PromptCache) (p : string) (w : World) (e : exn) :
  AI_embedding p = Thrown e ->
  findSimilarCache cache p w = (Thrown e, with_ai_call (EmbedCall EMBEDDING_MODEL p) w).
Proof. intros Hq. unfold findSimilarCache, bind, generateEmbedding. rewrite Hq. reflexivity. Qed.

Lemma findSimilarCache_world (cache : PromptCache) (p : string) (w : World) :
  snd (findSimilarCache cache p w) = with_ai_call (EmbedCall EMBEDDING_MODEL p) w.
Proof.
  destruct (AI_embedding p) as [q | e] eqn:Hq.
  - rewrite (findSimilarCache_embedded cache p w q Hq). destruct (redis_status w); reflexivity.
  - rewrite (findSimilarCache_failed cache p w e Hq). reflexivity.
Qed.

Lemma findSimilarCache_reads (cache : PromptCache) (p : string) (w1 w2 : World) :
  redis w1 = redis w2 -> redis_status w1 = redis_status w2 ->
  fst (findSimilarCache cache p w1) = fst (findSimilarCache cache p w2).
Proof.
  intros Hr Hs. destruct (AI_embedding p) as [q | e] eqn:Hq.
  - rewrite !(findSimilarCache_embedded cache p _ q Hq), Hr, Hs.
    destruct (redis_status w2); reflexivity.
  - rewrite !(findSimilarCache_failed cache p _ e Hq). reflexivity.
Qed.

Lemma lookups_store (cache : PromptCache) (p : string) (n : nat) :
  forall w, redis (lookups cache p n w) = redis w /\
            redis_status (lookups cache p n w) = redis_status w.
Proof.
  induction n as [| n IH]; intros w; simpl; [auto |].
  destruct (IH (snd (findSimilarCache cache p w))) as [-> ->].
  rewrite findSimilarCache_world. auto.
Qed.

(** C7, as the code has it. When the embedding provider throws, lookup
    throws the provider's error on to its caller and reports no miss. The
    vector the provider returns is not inspected: whatever its shape,
    lookup answers with the first result of the search run on it; and a
    vector that is empty, or has a coordinate that is NaN or infinite, is
    reported as a miss under every threshold above 0, whatever is stored:
    each of its similarities is 0 or NaN. *)
Theorem lookup_passes_provider_error_on (cache : PromptCache) (p : string) (w : World) :
  (forall e, AI_embedding p = Thrown e ->
     findSimilarCache cache p w = (Thrown e, with_ai_call (EmbedCall EMBEDDING_MODEL p) w)) /\
  (forall q, AI_embedding p = Returned q ->
     redis_status w = None ->
     returned (findSimilarCache cache p w) =
     option_map best_of
       (returned (searchSimilar q (similarityThreshold cache) (Some 1)
                    (with_ai_call (EmbedCall EMBEDDING_MODEL p) w)))) /\
  (forall q, AI_embedding p = Returned q ->
     redis_status w = None ->
     malformed q = true ->
     Num.gt (similarityThreshold cache) Num.zero = true ->
     findSimilarCache cache p w =
     (Returned None, with_ai_call (EmbedCall EMBEDDING_MODEL p) w)).
Proof.
  split; [| split].
  - intros e He. apply findSimilarCache_failed, He.
  - intros q Hq Hup. rewrite (findSimilarCache_embedded cache p w q Hq), Hup.
    rewrite (searchSimilar_run q _ (Some 1) (with_ai_call _ w) Hup). reflexivity.
  - intros q Hq Hup Hbad Ht. rewrite (findSimilarCache_embedded cache p w q Hq), Hup.
    assert (Hm : matches (redis w) q (similarityThreshold cache) (cache_keys (redis w)) = []).
    { unfold matches. induction (cache_keys (redis w)) as [| k ks IH]; [reflexivity |].
      simpl. rewrite IH, app_nil_r. unfold match_of.
      destruct (redis w !! k) as [doc |]; [| reflexivity].
      destruct (String.eqb doc ""); [reflexivity |].
      destruct (JSON_parse doc) as [e |]; [| reflexivity].
      rewrite (cosine_of_malformed q (embedding e) _ Hbad Ht). reflexivity. }
    rewrite Hm. reflexivity.
Qed.

(** C9. Lookup is pure with respect to the store: a lookup leaves the
    record collection as it was, so do any number of lookups in a row,
    each of them answers as the first one did, and a prompt that no
    stored record matches is a miss however often it is looked up. *)
Theorem lookup_leaves_store_unchanged (cache : PromptCache) (p : string) (w : World) :
  redis (snd (findSimilarCache cache p w)) = redis w /\
  (forall n,
     redis (lookups cache p n w) = redis w /\
     fst (findSimilarCache cache p (lookups cache p n w)) = fst (findSimilarCache cache p w)) /\
  (forall q,
     AI_embedding p = Returned q -> redis_status w = None ->
     (forall key, match_of (redis w) q (similarityThreshold cache) key = []) ->
     forall n, fst (findSimilarCache cache p (lookups cache p n w)) = Returned None).
Proof.
  split; [rewrite findSimilarCache_world; reflexivity |].
  assert (Hn : forall n,
             redis (lookups cache p n w) = redis w /\
             fst (findSimilarCache cache p (lookups cache p n w)) =
             fst (findSimilarCache cache p w)).
  { intros n. destruct (lookups_store cache p n w) as [Hr Hs].
    split; [exact Hr | apply findSimilarCache_reads; assumption]. }
  split; [exact Hn |].
  intros q Hq Hup Hnone n. rewrite (proj2 (Hn n)).
  rewrite (findSimilarCache_embedded cache p w q Hq), Hup. simpl.
  assert (Hm : matches (redis w) q (similarityThreshold cache) (cache_keys (redis w)) = []).
  { unfold matches. induction (cache_keys (redis w)) as [| k ks IH]; [reflexivity |].
    simpl. rewrite Hnone, IH. reflexivity. }
  rewrite Hm. reflexivity.
Qed.

(** ** Storing a response, then looking the prompt up *)

Lemma cacheResponse_run (p r m : string) (w : World) (q : list float) :
  AI_embedding p = Returned q -> redis_status w = None ->
  cacheResponse p r m w =
  (Returned tt,
   with_redis (insert (key_at p (clock w)) (JSON_stringify (mkEntry p q r (clock w) m)))
              (with_ai_call (EmbedCall EMBEDDING_MODEL p) w)).
Proof.
  intros Hq Hup.
  unfold cacheResponse, bind, generateEmbedding, Date_now, generateId, ret, store, bind, execute.
  rewrite Hq. simpl. rewrite Hup. reflexivity.
Qed.

Lemma cacheResponse_calls (p r m : string) (w : World) :
  ai_calls (snd (cacheResponse p r m w)) = (ai_calls w ++ [EmbedCall EMBEDDING_MODEL p])%list.
Proof.
  unfold cacheResponse, bind, generateEmbedding, Date_now, generateId, ret, store, bind, execute.
  destruct (AI_embedding p); simpl; [| reflexivity].
  destruct (redis_status w); reflexivity.
Qed.

Lemma embedding_calls_app (p : string) (more : list ai_call) (w w' : World) :
  ai_calls w' = (ai_calls w ++ more)%list ->
  embedding_calls p w' = (embedding_calls p w + length (List.filter (embeds p) more))%nat.
Proof.
  intros H. unfold embedding_calls. rewrite H, List.filter_app, length_app. reflexivity.
Qed.

(** C4, as the code has it. A lookup that misses answers [null], which
    carries no embedding, and [cacheResponse] takes none: it embeds the
    prompt again. Over a miss followed by the store the embedding
    provider is run on the prompt exactly twice. *)
Theorem miss_then_store_embeds_twice (cache : PromptCache) (p r m : string)
    (w w1 w2 : World) (o : outcome unit) :
  findSimilarCache cache p w = (Returned None, w1) ->
  cacheResponse p r m w1 = (o, w2) ->
  embedding_calls p w1 = (embedding_calls p w + 1)%nat /\
  embedding_calls p w2 = (embedding_calls p w + 2)%nat.
Proof.
  intros Hfind Hstore.
  assert (H1 : embedding_calls p w1 = (embedding_calls p w + 1)%nat).
  { rewrite (embedding_calls_app p [EmbedCall EMBEDDING_MODEL p] w w1).
    - simpl. rewrite String.eqb_refl. reflexivity.
    - pose proof (findSimilarCache_world cache p w) as Hw. rewrite Hfind in Hw.
      simpl in Hw. subst w1. reflexivity. }
  split; [exact H1 |].
  rewrite (embedding_calls_app p [EmbedCall EMBEDDING_MODEL p] w1 w2).
  - simpl. rewrite String.eqb_refl, H1. simpl. lia.
  - pose proof (cacheResponse_calls p r m w1) as Hc. rewrite Hstore in Hc. exact Hc.
Qed.

(** C1, as the code has it. After [cacheResponse p r m], [findSimilarCache
    p] is a hit whose response is [r], provided the stored document
    decodes to the entry, the similarity computed for [p]'s embedding
    with itself reaches the threshold, and every other stored record
    scores below it. *)
Theorem store_then_lookup_hits (cache : PromptCache) (p r m : string) (w : World)
    (q : list float) :
  enumerates ->
  redis_status w = None ->
  AI_embedding p = Returned q ->
  let e := mkEntry p q r (clock w) m in
  JSON_stringify e <> "" ->
  JSON_parse (JSON_stringify e) = Some e ->
  Num.ge (cosineSimilarity q q) (similarityThreshold cache) = true ->
  (forall key text e',
      key <> key_at p (clock w) -> redis w !! key = Some text -> JSON_parse text = Some e' ->
      Num.gt (cosineSimilarity q q) (cosineSimilarity q (embedding e')) = true) ->
  fst (cacheResponse p r m w) = Returned tt /\
  fst (findSimilarCache cache p (snd (cacheResponse p r m w))) =
  Returned (Some (mkLookup e (cosineSimilarity q q))) /\
  response e = r.
Proof.
  intros Henum Hup Hq e Hne Hparse Hself Hothers.
  rewrite (cacheResponse_run p r m w q Hq Hup). fold e.
  set (w1 := with_redis _ _).
  split; [reflexivity |]. split; [| reflexivity].
  cbn [snd]. rewrite (findSimilarCache_embedded cache p w1 q Hq).
  change (redis_status w1) with (redis_status w). rewrite Hup. cbn [fst].
  set (x := mkResult (key_at p (clock w)) (cosineSimilarity q q) e).
  assert (Hdoc : redis w1 !! key_at p (clock w) = Some (JSON_stringify e))
    by (simpl; apply lookup_insert_eq).
  destruct (Array_sort_best x (matches (redis w1) q (similarityThreshold cache) (cache_keys (redis w1))))
    as [rest Hsorted].
  - exact (ge_not_nan _ _ Hself).
  - apply matches_In. exists (key_at p (clock w)). split.
    + apply filter_In. split; [apply Henum; rewrite Hdoc; eauto | apply glob_cache; eauto].
    + apply match_of_In. exists (JSON_stringify e), e. auto.
  - intros y Hy. apply matches_In in Hy as (key & _ & Hy).
    apply match_of_In in Hy as (text & e' & Hdoc' & _ & Hparse' & _ & ->).
    destruct (decide (key = key_at p (clock w))) as [-> | Hkey].
    + left. rewrite Hdoc in Hdoc'. inversion Hdoc'; subst text.
      rewrite Hparse in Hparse'. inversion Hparse'; subst e'. reflexivity.
    + right. simpl. simpl in Hdoc'. rewrite lookup_insert_ne in Hdoc' by auto.
      eapply Hothers; eassumption.
  - rewrite Hsorted, Array_slice0_first. reflexivity.
Qed.

(** * Further properties of the code *)

(** ** [cosineSimilarity] is symmetric *)

Lemma float_mul_comm (x y : float) : PrimFloat.mul x y = PrimFloat.mul y x.
Proof.
  apply Prim2SF_inj. rewrite !mul_spec. unfold SF64mul.
  destruct (Prim2SF x) as [sx | sx | | sx mx ex];
    destruct (Prim2SF y) as [sy | sy | | sy my ey]; simpl;
    rewrite ?(xorb_comm sx sy); try reflexivity.
  rewrite (Pos.mul_comm mx my), (Z.add_comm ex ey). reflexivity.
Qed.

Lemma dot_product_from_comm (a : list float) :
  forall (b : list float) (d : float),
    fold_left (fun d xy => PrimFloat.add d (PrimFloat.mul (fst xy) (snd xy))) (combine a b) d =
    fold_left (fun d xy => PrimFloat.add d (PrimFloat.mul (fst xy) (snd xy))) (combine b a) d.
Proof.
  induction a as [| x a IH]; intros [| y b] d; simpl; try reflexivity.
  rewrite (float_mul_comm x y). apply IH.
Qed.

(** X1. The similarity of [a] with [b] is the similarity of [b] with [a]:
    the same float, bit for bit, NaN included. *)
Theorem cosineSimilarity_symmetric (a b : list float) :
  cosineSimilarity a b = cosineSimilarity b a.
Proof.
  destruct (Nat.eq_dec (length a) (length b)) as [Hlen | Hlen].
  - rewrite (cosineSimilarity_same_length a b Hlen).
    rewrite (cosineSimilarity_same_length b a (eq_sym Hlen)). cbv zeta.
    unfold dot_product. rewrite (dot_product_from_comm a b).
    rewrite (float_mul_comm (PrimFloat.sqrt (sum_squares a))). reflexivity.
  - rewrite (cosineSimilarity_length_mismatch a b Hlen).
    rewrite (cosineSimilarity_length_mismatch b a); [reflexivity | auto].
Qed.

(** ** More on [searchSimilar] *)

Lemma Array_slice0_length {A} (l : list A) (n : Z) :
  0 <= n -> Z.of_nat (length (Array_slice0 l n)) <= n.
Proof.
  intros Hn. unfold Array_slice0.
  destruct (Z.ltb_spec n 0) as [Hneg | _]; [lia |].
  rewrite length_firstn. lia.
Qed.

Lemma Array_slice0_all {A} (l : list A) (n : Z) :
  Z.of_nat (length l) <= n -> Array_slice0 l n = l.
Proof.
  intros Hn. unfold Array_slice0.
  destruct (Z.ltb_spec n 0) as [Hneg | _]; [lia |].
  apply firstn_all2. lia.
Qed.

Lemma Array_sort_length {A} (cmp : A -> A -> float) (l : list A) :
  length (Array_sort cmp l) = length l.
Proof.
  induction l as [| x l IH]; [reflexivity |]. simpl. rewrite <- IH.
  generalize (Array_sort cmp l). intros s.
  induction s as [| y s IHs]; simpl; [reflexivity |].
  destruct (sorts_after cmp x y); simpl; [rewrite IHs |]; reflexivity.
Qed.

(** X2. The limit bounds the result: for a limit that is not negative,
    [searchSimilar] returns at most [limit] matches, the first ones of the
    sorted matches; and it returns all of them when there are no more
    than [limit]. *)
Theorem search_returns_at_most_limit (q : list float) (t : float) (limit : option Z)
    (w w' : World) (results : list VectorSearchResult) :
  searchSimilar q t limit w = (Returned results, w') ->
  0 <= limit_or_default limit ->
  let sorted := Array_sort by_score (matches (redis w) q t (cache_keys (redis w))) in
  Z.of_nat (length results) <= limit_or_default limit /\
  (exists rest, sorted = (results ++ rest)%list) /\
  (Z.of_nat (length sorted) <= limit_or_default limit -> results = sorted).
Proof.
  intros H Hl sorted. apply searchSimilar_results in H as (_ & _ & ->). fold sorted.
  split; [apply Array_slice0_length, Hl |]. split.
  - destruct (Array_slice0_prefix sorted (limit_or_default limit)) as [k ->].
    exists (skipn k sorted). symmetry. apply firstn_skipn.
  - apply Array_slice0_all.
Qed.

(** X3. Keys outside the prefix are not records: on a database none of
    whose keys begins with ["cache:"], the empty database included, the
    search returns the empty sequence whatever the threshold. *)
Theorem search_ignores_other_keys (q : list float) (t : float) (limit : option Z) (w : World) :
  enumerates ->
  redis_status w = None ->
  (forall key, is_Some (redis w !! key) -> glob "cache:*" key = false) ->
  searchSimilar q t limit w = (Returned [], w).
Proof.
  intros Henum Hup Hnone.
  assert (Hk : cache_keys (redis w) = []).
  { unfold cache_keys.
    assert (Hks : forall k, In k (keyspace (redis w)) -> glob "cache:*" k = false)
      by (intros k Hk; apply Hnone, Henum, Hk).
    revert Hks. generalize (keyspace (redis w)). intros ks.
    induction ks as [| k ks IH]; intros Hks; [reflexivity |]. cbn [List.filter].
    rewrite (Hks k (or_introl eq_refl)). apply IH.
    intros k' Hk'. apply Hks. right. exact Hk'. }
  rewrite (searchSimilar_run q t limit w Hup), Hk. unfold Array_slice0. simpl.
  rewrite firstn_nil. reflexivity.
Qed.

(** ** What a lookup finds *)

Lemma best_of_slice (l : list VectorSearchResult) : best_of (Array_slice0 l 1) = best_of l.
Proof.
  destruct l as [| x l]; [| rewrite Array_slice0_first; reflexivity].
  unfold Array_slice0. rewrite firstn_nil. reflexivity.
Qed.

Lemma matching_record_In (db : gmap string string) (q : list float) (t : float)
    (key : string) (e : CachedEntry) :
  enumerates ->
  matching_record db q t key e <->
  In (mkResult key (cosineSimilarity q (embedding e)) e) (matches db q t (cache_keys db)).
Proof.
  intros Henum. unfold matching_record. split.
  - intros (text & Hglob & Hdoc & Hne & Hparse & Hge).
    apply matches_In. exists key. split.
    + apply filter_In. split; [apply Henum; rewrite Hdoc; eauto | exact Hglob].
    + apply match_of_In. exists text, e. auto.
  - intros Hin. apply matches_In in Hin as (key' & Hkey & Hin).
    apply filter_In in Hkey as [_ Hglob].
    apply match_of_In in Hin as (text & e' & Hdoc & Hne & Hparse & Hge & Heq).
    inversion Heq; subst key' e'. eauto 10.
Qed.

Lemma matches_are_records (db : gmap string string) (q : list float) (t : float)
    (r : VectorSearchResult) :
  enumerates ->
  In r (matches db q t (cache_keys db)) ->
  matching_record db q t (id r) (data r) /\ score r = cosineSimilarity q (embedding (data r)).
Proof.
  intros Henum Hin. pose proof Hin as Hin'.
  apply matches_In in Hin' as (key & _ & Hr).
  apply match_of_In in Hr as (text & e & _ & _ & _ & _ & ->). simpl.
  split; [apply matching_record_In; assumption | reflexivity].
Qed.

Lemma lookup_reads_best (cache : PromptCache) (p : string) (w : World) (q : list float) :
  AI_embedding p = Returned q -> redis_status w = None ->
  fst (findSimilarCache cache p w) =
  Returned (best_of (Array_sort by_score
                       (matches (redis w) q (similarityThreshold cache) (cache_keys (redis w))))).
Proof.
  intros Hq Hup. rewrite (findSimilarCache_embedded cache p w q Hq), Hup. simpl.
  rewrite best_of_slice. reflexivity.
Qed.

(** X4. A lookup is a hit exactly when some stored record reaches the
    threshold: with the database reachable and the prompt embedded,
    [findSimilarCache] answers a hit if and only if there is a prefixed
    key whose document decodes and scores at least the threshold. *)
Theorem lookup_hits_iff_a_record_matches (cache : PromptCache) (p : string) (w : World)
    (q : list float) :
  enumerates ->
  redis_status w = None ->
  AI_embedding p = Returned q ->
  (exists hit, fst (findSimilarCache cache p w) = Returned (Some hit)) <->
  (exists key e, matching_record (redis w) q (similarityThreshold cache) key e).
Proof.
  intros Henum Hup Hq. rewrite (lookup_reads_best cache p w q Hq Hup).
  set (M := matches (redis w) q (similarityThreshold cache) (cache_keys (redis w))).
  split.
  - intros [hit Hhit].
    destruct (Array_sort by_score M) as [| x rest] eqn:Es; [discriminate Hhit |].
    assert (Hx : In x M) by (apply (Array_sort_In by_score); rewrite Es; left; reflexivity).
    apply (matches_are_records _ _ _ _ Henum) in Hx as [Hx _]. eauto.
  - intros (key & e & Hrec). apply (matching_record_In _ _ _ _ _ Henum) in Hrec.
    fold M in Hrec. apply (Array_sort_In by_score) in Hrec.
    destruct (Array_sort by_score M) as [| x rest]; [contradiction |].
    simpl. eauto.
Qed.

(** X5. A hit is the best match: the entry [findSimilarCache] answers is
    a stored record that reaches the threshold, the similarity it reports
    is the one computed for that entry, and no stored record that
    reaches the threshold scores higher. *)
Theorem lookup_returns_the_best_match (cache : PromptCache) (p : string) (w : World)
    (q : list float) (hit : CacheLookup) :
  enumerates ->
  redis_status w = None ->
  AI_embedding p = Returned q ->
  fst (findSimilarCache cache p w) = Returned (Some hit) ->
  (exists key, matching_record (redis w) q (similarityThreshold cache) key (entry hit)) /\
  similarity hit = cosineSimilarity q (embedding (entry hit)) /\
  forall key e,
    matching_record (redis w) q (similarityThreshold cache) key e ->
    Num.ge (similarity hit) (cosineSimilarity q (embedding e)) = true.
Proof.
  intros Henum Hup Hq Hhit. rewrite (lookup_reads_best cache p w q Hq Hup) in Hhit.
  set (M := matches (redis w) q (similarityThreshold cache) (cache_keys (redis w))) in *.
  pose proof (Array_sort_descending M (matches_scored _ _ _ _)) as Hsorted.
  destruct (Array_sort by_score M) as [| x rest] eqn:Es; [discriminate Hhit |].
  simpl in Hhit. inversion Hhit; subst hit. simpl.
  assert (Hx : In x M) by (apply (Array_sort_In by_score); rewrite Es; left; reflexivity).
  pose proof (matches_are_records _ _ _ _ Henum Hx) as [Hrec Hscore].
  split; [eauto |]. split; [exact Hscore |].
  intros key e He. apply (matching_record_In _ _ _ _ _ Henum) in He. fold M in He.
  apply (Array_sort_In by_score) in He. rewrite Es in He.
  inversion Hsorted as [| ? ? _ Hall]; subst.
  destruct He as [Heq | He].
  - subst x. simpl. apply ge_rank.
    assert (Hn : Num.not_nan (cosineSimilarity q (embedding e))).
    { pose proof (matches_scored (redis w) q (similarityThreshold cache) (cache_keys (redis w)))
        as Hs. rewrite List.Forall_forall in Hs. apply (Hs _ Hx). }
    repeat split; auto. lia.
  - rewrite List.Forall_forall in Hall. apply (Hall _ He).
Qed.

(** ** [getCacheSize] *)

Lemma getCacheSize_run (w : World) :
  redis_status w = None ->
  getCacheSize w = (Returned (Z.of_nat (length (cache_keys (redis w)))), w).
Proof. intros Hup. unfold getCacheSize, bind, execute. rewrite Hup. reflexivity. Qed.

Lemma cache_keys_In (db : gmap string string) (key : string) :
  enumerates ->
  In key (cache_keys db) <-> glob "cache:*" key = true /\ is_Some (db !! key).
Proof.
  intros Henum. unfold cache_keys. rewrite filter_In, (Henum db key).
  split; intros [H1 H2]; split; assumption.
Qed.

Lemma cache_keys_insert_length (db : gmap string string) (rest text : string) :
  enumerates -> enumerates_once ->
  length (cache_keys (<["cache:" +:+ rest := text]> db)) =
  match db !! ("cache:" +:+ rest) with
  | Some _ => length (cache_keys db)
  | None => S (length (cache_keys db))
  end.
Proof.
  intros Henum Honce. set (key := "cache:" +:+ rest).
  assert (Hglob : glob "cache:*" key = true) by (apply glob_cache; eauto).
  assert (Hnd : forall d, List.NoDup (cache_keys d))
    by (intros d; apply List.NoDup_filter, Honce).
  assert (Hin : forall k, In k (cache_keys (<[key := text]> db)) <-> k = key \/ In k (cache_keys db)).
  { intros k. rewrite !(cache_keys_In _ _ Henum).
    destruct (decide (key = k)) as [<- | Hne].
    - rewrite lookup_insert_eq. split; [intros _; left; reflexivity |].
      intros _. split; [exact Hglob | eauto].
    - rewrite lookup_insert_ne by assumption. split; [intros H; right; exact H |].
      intros [-> | H]; [contradiction Hne; reflexivity | exact H]. }
  destruct (db !! key) as [old |] eqn:Hold.
  - apply Permutation_length, Permutation.NoDup_Permutation; auto.
    intros k. rewrite Hin. split; [| auto].
    intros [-> | Hk]; [| exact Hk]. apply (cache_keys_In _ _ Henum). rewrite Hold. eauto.
  - change (S (length (cache_keys db))) with (length (key :: cache_keys db)).
    apply Permutation_length, Permutation.NoDup_Permutation; auto.
    + constructor; [| apply Hnd]. intros Hk. apply (cache_keys_In _ _ Henum) in Hk as [_ [v Hv]].
      congruence.
    + intros k. rewrite Hin. simpl. split; intros [-> | H]; auto.
Qed.

(** X6. The cache size counts the records: after [store id e] the size
    [getCacheSize] reports is one more than before when no record was
    stored under [id], and the same as before when one was, which the
    store overwrites. *)
Theorem size_after_store (id_ : string) (e : CachedEntry) (w : World) :
  enumerates -> enumerates_once ->
  redis_status w = None ->
  exists n,
    getCacheSize w = (Returned n, w) /\
    fst (getCacheSize (snd (store id_ e w))) =
    Returned (match redis w !! ("cache:" +:+ id_) with
              | Some _ => n
              | None => n + 1
              end).
Proof.
  intros Henum Honce Hup. exists (Z.of_nat (length (cache_keys (redis w)))).
  split; [apply getCacheSize_run, Hup |].
  rewrite (store_run id_ e w Hup). cbn [snd]. rewrite getCacheSize_run by exact Hup.
  cbn [fst]. simpl redis. rewrite (cache_keys_insert_length _ _ _ Henum Honce).
  destruct (redis w !! ("cache:" +:+ id_)); [reflexivity |].
  rewrite Nat2Z.inj_succ. reflexivity.
Qed.

(** ** [generateId] *)

Lemma ToInt32_range (z : Z) : - 2 ^ 31 <= ToInt32 z < 2 ^ 31.
Proof.
  unfold ToInt32. pose proof (Z.mod_pos_bound z (2 ^ 32) ltac:(lia)).
  destruct (Z.ltb_spec (z mod 2 ^ 32) (2 ^ 31)); lia.
Qed.

Lemma ToInt32_wraps (z : Z) : exists k, ToInt32 z = z + 2 ^ 32 * k.
Proof.
  unfold ToInt32. pose proof (Z.div_mod z (2 ^ 32) ltac:(lia)) as Hdm.
  destruct (Z.ltb_spec (z mod 2 ^ 32) (2 ^ 31)).
  - exists (- (z / 2 ^ 32)). lia.
  - exists (- (z / 2 ^ 32) - 1). lia.
Qed.

Lemma ToInt32_congruent (a b k : Z) : a = b + 2 ^ 32 * k -> ToInt32 a = ToInt32 b.
Proof.
  intros ->. unfold ToInt32.
  replace (b + 2 ^ 32 * k) with (b + k * 2 ^ 32) by lia.
  rewrite Z.mod_add by lia. reflexivity.
Qed.

Lemma hash_step_wraps (h P : Z) (c : ascii) :
  h = ToInt32 P -> hash_step h c = ToInt32 (poly31_step P c).
Proof.
  intros ->. unfold hash_step, poly31_step. rewrite Z.shiftl_mul_pow2 by lia.
  destruct (ToInt32_wraps P) as [k0 H0].
  destruct (ToInt32_wraps (ToInt32 P)) as [k1 H1].
  destruct (ToInt32_wraps (ToInt32 (ToInt32 P) * 2 ^ 5)) as [k2 H2].
  apply (ToInt32_congruent _ _ (31 * k0 + 32 * k1 + k2)).
  rewrite H2, H1, H0. change (2 ^ 5) with 32. ring.
Qed.

Lemma hash_from_wraps (l : list ascii) :
  forall h P, h = ToInt32 P ->
    fold_left hash_step l h = ToInt32 (fold_left poly31_step l P).
Proof.
  induction l as [| c l IH]; intros h P Hh; simpl; [exact Hh |].
  apply IH. apply hash_step_wraps, Hh.
Qed.

Lemma hash_of_wraps (s : string) : hash_of s = ToInt32 (poly31 s).
Proof. apply hash_from_wraps. reflexivity. Qed.

(** X7. The id's fingerprint is the polynomial hash of the prompt wrapped
    to 32 bits: [generateId]'s loop computes [ToInt32] of the sum in which
    each character code is added to 31 times what came before, so the
    number printed before the separator lies between 0 and [2^31]. *)
Theorem hash_is_wrapped_polynomial (s : string) :
  hash_of s = ToInt32 (poly31 s) /\ 0 <= Z.abs (hash_of s) <= 2 ^ 31.
Proof.
  split; [apply hash_of_wraps |].
  rewrite hash_of_wraps. pose proof (ToInt32_range (poly31 s)). lia.
Qed.

Lemma list_ascii_of_append (s t : string) :
  list_ascii_of_string (s +:+ t) = (list_ascii_of_string s ++ list_ascii_of_string t)%list.
Proof.
  induction s as [| c s IH]; [reflexivity |].
  change (String c s +:+ t) with (String c (s +:+ t)). simpl. rewrite IH. reflexivity.
Qed.

Lemma list_ascii_length (s : string) : length (list_ascii_of_string s) = String.length s.
Proof. induction s as [| c s IH]; simpl; [| rewrite IH]; reflexivity. Qed.

Lemma poly31_from (l : list ascii) :
  forall P, fold_left poly31_step l P = 31 ^ Z.of_nat (length l) * P + fold_left poly31_step l 0.
Proof.
  induction l as [| c l IH]; intros P.
  - simpl. lia.
  - cbn [fold_left length]. rewrite (IH (poly31_step P c)), (IH (poly31_step 0 c)).
    rewrite Nat2Z.inj_succ, Z.pow_succ_r by lia. unfold poly31_step. ring.
Qed.

Lemma poly31_replace (s u v t : string) :
  String.length u = String.length v -> poly31 u = poly31 v ->
  poly31 (s +:+ u +:+ t) = poly31 (s +:+ v +:+ t).
Proof.
  intros Hlen Hpoly. unfold poly31 in *.
  rewrite !list_ascii_of_append, !fold_left_app. f_equal.
  rewrite (poly31_from (list_ascii_of_string u)), (poly31_from (list_ascii_of_string v)).
  rewrite !list_ascii_length, Hlen, Hpoly. reflexivity.
Qed.

(** X8. Ids are not unique: two prompts that differ in a stretch of equal
    length and equal polynomial value (["Aa"] and ["BB"], say) get the
    same fingerprint, hence the same key within one millisecond, and the
    record cached for the second takes the place of the record cached
    for the first. *)
Theorem colliding_prompts_share_a_key (s u v t r1 m1 r2 m2 : string) (w : World)
    (q1 q2 : list float) :
  String.length u = String.length v ->
  poly31 u = poly31 v ->
  let p1 := s +:+ u +:+ t in
  let p2 := s +:+ v +:+ t in
  redis_status w = None ->
  AI_embedding p1 = Returned q1 ->
  AI_embedding p2 = Returned q2 ->
  key_at p1 (clock w) = key_at p2 (clock w) /\
  redis (snd (cacheResponse p2 r2 m2 (snd (cacheResponse p1 r1 m1 w)))) =
  <[key_at p2 (clock w) := JSON_stringify (mkEntry p2 q2 r2 (clock w) m2)]> (redis w).
Proof.
  intros Hlen Hpoly p1 p2 Hup Hq1 Hq2.
  assert (Hkey : key_at p1 (clock w) = key_at p2 (clock w)).
  { unfold key_at. rewrite (hash_of_wraps p1), (hash_of_wraps p2).
    unfold p1, p2. rewrite (poly31_replace s u v t Hlen Hpoly). reflexivity. }
  split; [exact Hkey |].
  rewrite (cacheResponse_run p1 r1 m1 w q1 Hq1 Hup). cbn [snd].
  set (w1 := with_redis _ _).
  rewrite (cacheResponse_run p2 r2 m2 w1 q2 Hq2 Hup). cbn [snd]. unfold w1. simpl.
  rewrite Hkey. apply insert_insert_eq.
Qed.

Ltac read_digit :=
  match goal with
  | |- context [digit_of 10 ?c] =>
      let v := eval vm_compute in (digit_of 10 c) in change (digit_of 10 c) with v
  end.

Lemma digits_from_acc (d : Decimal.uint) :
  forall acc,
    digits_from 10 (NilEmpty.string_of_uint d) (Z.pos acc) = Z.pos (Pos.of_uint_acc d acc).
Proof.
  induction d; intros acc;
    cbn [NilEmpty.string_of_uint Pos.of_uint_acc digits_from]; [reflexivity | ..];
    read_digit; cbv iota beta; rewrite <- IHd; f_equal; lia.
Qed.

Lemma digits_from_zero (d : Decimal.uint) :
  digits_from 10 (NilEmpty.string_of_uint d) 0 = Z.of_N (Pos.of_uint d).
Proof.
  induction d; cbn [NilEmpty.string_of_uint Pos.of_uint digits_from]; [reflexivity | ..];
    read_digit; cbv iota beta; [exact IHd | ..]; apply digits_from_acc.
Qed.

(** [parseInt] reads a numeral, and a numeral behind a minus sign. *)
Lemma numeral_read (d : Decimal.uint) :
  d <> Decimal.Nil ->
  parseInt (NilEmpty.string_of_uint d) = Some (Z.of_N (Pos.of_uint d)) /\
  parseInt (String "-" (NilEmpty.string_of_uint d)) = Some (- Z.of_N (Pos.of_uint d)).
Proof.
  intros Hd. rewrite <- digits_from_zero.
  assert (H : unsigned_prefix (NilEmpty.string_of_uint d) =
              Some (digits_from 10 (NilEmpty.string_of_uint d) 0)).
  { destruct d as [| d' | d' | d' | d' | d' | d' | d' | d' | d' | d']; try contradiction;
      try reflexivity.
    destruct d'; reflexivity. }
  split.
  - unfold parseInt.
    replace (trim_start (NilEmpty.string_of_uint d)) with (NilEmpty.string_of_uint d)
      by (destruct d; reflexivity).
    rewrite <- H. destruct d; try contradiction; reflexivity.
  - unfold parseInt. cbn [trim_start]. change (is_blank "-") with false. cbv iota.
    rewrite H. reflexivity.
Qed.

Lemma parseInt_decimal (z : Z) : parseInt (decimal z) = Some z.
Proof.
  unfold decimal. destruct z as [| p | p]; [reflexivity | |];
    pose proof (DecimalPos.Unsigned.to_uint_nonnil p) as Hp;
    destruct (numeral_read (Pos.to_uint p) Hp) as [H1 H2];
    rewrite DecimalPos.Unsigned.of_to in H1, H2; simpl Z.to_int;
    unfold NilZero.string_of_int, NilZero.string_of_uint;
    destruct (Pos.to_uint p); try contradiction; assumption.
Qed.

Lemma decimal_inj (a b : Z) : decimal a = decimal b -> a = b.
Proof.
  intros H. apply (f_equal parseInt) in H. rewrite !parseInt_decimal in H. congruence.
Qed.

Lemma digits_no_underscore (d : Decimal.uint) : no_underscore (NilEmpty.string_of_uint d).
Proof.
  unfold no_underscore. induction d; simpl; intros H;
    try (destruct H as [H | H]; [discriminate H | exact (IHd H)]).
  exact H.
Qed.

Lemma decimal_no_underscore (z : Z) : no_underscore (decimal z).
Proof.
  unfold decimal, NilZero.string_of_int, NilZero.string_of_uint.
  destruct (Z.to_int z) as [d | d].
  - destruct d; try apply digits_no_underscore.
    unfold no_underscore. simpl. intros [H | []]. discriminate H.
  - assert (H : no_underscore (match d with
                                | Decimal.Nil => "0"
                                | _ => NilEmpty.string_of_uint d
                                end)).
    { destruct d; try apply digits_no_underscore.
      unfold no_underscore. simpl. intros [H | []]. discriminate H. }
    unfold no_underscore in *. simpl. intros [H' | H']; [discriminate H' | exact (H H')].
Qed.

Lemma append_cancel_l (s a b : string) : s +:+ a = s +:+ b -> a = b.
Proof.
  induction s as [| c s IH]; intros H; [exact H |].
  change (String c (s +:+ a) = String c (s +:+ b)) in H. inversion H. auto.
Qed.

Lemma split_at_underscore (u1 : string) :
  forall u2 v1 v2,
    no_underscore u1 -> no_underscore u2 ->
    u1 +:+ "_" +:+ v1 = u2 +:+ "_" +:+ v2 -> u1 = u2 /\ v1 = v2.
Proof.
  unfold no_underscore.
  induction u1 as [| c u1 IH]; intros [| d u2] v1 v2 H1 H2 H.
  - change (String "_" v1 = String "_" v2) in H. inversion H. auto.
  - change (String "_" v1 = String d (u2 +:+ "_" +:+ v2)) in H. inversion H; subst d.
    exfalso. apply H2. left. reflexivity.
  - change (String c (u1 +:+ "_" +:+ v1) = String "_" v2) in H. inversion H; subst c.
    exfalso. apply H1. left. reflexivity.
  - change (String c (u1 +:+ "_" +:+ v1) = String d (u2 +:+ "_" +:+ v2)) in H.
    inversion H; subst d.
    destruct (IH u2 v1 v2) as [-> ->]; auto.
    + intros Hin. apply H1. right. exact Hin.
    + intros Hin. apply H2. right. exact Hin.
Qed.

(** X9. Two cached responses are written under the same key exactly when
    their prompts have the same fingerprint and they are cached in the
    same millisecond; so the same prompt cached at two different times
    leaves two records. *)
Theorem same_key_iff_same_fingerprint_and_time (p1 p2 : string) (t1 t2 : Z) :
  key_at p1 t1 = key_at p2 t2 <->
  Z.abs (hash_of p1) = Z.abs (hash_of p2) /\ t1 = t2.
Proof.
  unfold key_at. split.
  - intros H. apply append_cancel_l in H.
    apply split_at_underscore in H as [Hh Ht]; try apply decimal_no_underscore.
    split; apply decimal_inj; assumption.
  - intros [-> ->]. reflexivity.
Qed.

(** ** [cacheResponse] when a service fails *)

(** X10. A failed store writes nothing: [cacheResponse] returns exactly
    when the prompt is embedded and the database answers; when it throws,
    because of the embedding provider or of the database, the record
    collection is as it was. *)
Theorem failed_cacheResponse_writes_nothing (p r m : string) (w : World) :
  (fst (cacheResponse p r m w) = Returned tt <->
   (exists q, AI_embedding p = Returned q) /\ redis_status w = None) /\
  (forall e, fst (cacheResponse p r m w) = Thrown e ->
             redis (snd (cacheResponse p r m w)) = redis w).
Proof.
  unfold cacheResponse, bind, generateEmbedding, Date_now, generateId, ret, store, bind, execute.
  destruct (AI_embedding p) as [q | e0]; simpl.
  - destruct (redis_status w) as [st |]; simpl; split.
    + split; [discriminate | intros [_ H]; discriminate H].
    + reflexivity.
    + split; [eauto | reflexivity].
    + discriminate.
  - split; [| reflexivity].
    split; [discriminate | intros [[q H] _]; discriminate H].
Qed.

(** ** The [/chat] route *)

Lemma bump_run (key : string) (w : World) :
  bump key w = (Returned tt, with_stats (insert key (bumped (CACHE_STATS w !! key))) w).
Proof. reflexivity. Qed.

Lemma chat_on_lookup (env : Env) (body : ChatRequest) (p : string) (w : World) :
  req_prompt body = Some p -> p <> "" ->
  chat env body w =
  match findSimilarCache (PromptCache_new env) p w with
  | (Thrown e, w1) => (Returned (JsonError 500 "Internal server error" (Some (message_of e))), w1)
  | (Returned (Some hit), w1) =>
      (Returned (JsonChat 200 (mkChat (response (entry hit)) true (Some (similarity hit))
                                 (clock w1))),
       with_stats (insert "hits" (bumped (CACHE_STATS w1 !! "hits"))) w1)
  | (Returned None, w1) =>
      let model_ := or_default (req_model body) "@cf/meta/llama-2-7b-chat-int8" in
      let w2 := with_stats (insert "misses" (bumped (CACHE_STATS w1 !! "misses"))) w1 in
      let w3 := with_ai_call (ChatCall model_ p) w2 in
      match AI_text model_ p (max_tokens_or_default (req_max_tokens body))
              (temperature_or_default (req_temperature body)) with
      | Thrown e => (Returned (JsonError 500 "Internal server error" (Some (message_of e))), w3)
      | Returned responseText =>
          match cacheResponse p responseText model_ w3 with
          | (Thrown e, w4) =>
              (Returned (JsonError 500 "Internal server error" (Some (message_of e))), w4)
          | (Returned _, w4) =>
              (Returned (JsonChat 200 (mkChat responseText false None (clock w4))), w4)
          end
      end
  end.
Proof.
  intros Hp Hne. unfold chat, try_catch. rewrite Hp.
  destruct (String.eqb_spec p ""); [contradiction |].
  unfold bind at 1.
  destruct (findSimilarCache (PromptCache_new env) p w) as [[[hit |] | e] w1]; try reflexivity.
  cbv zeta. unfold bind, run_model, bump, KV_get, KV_put, Date_now, ret. simpl.
  destruct (AI_text _ p _ _) as [text | e]; [| reflexivity].
  destruct (cacheResponse p text _ _) as [[[] | e] w4]; reflexivity.
Qed.

(** X11. The route always answers: [chat] never throws, its status is
    200, 400 or 500, and it is 400 exactly when the prompt is missing or
    empty, in which case no service has been called and nothing has
    changed. *)
Theorem chat_always_answers (env : Env) (body : ChatRequest) (w : World) :
  exists resp w',
    chat env body w = (Returned resp, w') /\
    (status_of resp = 200 \/ status_of resp = 400 \/ status_of resp = 500) /\
    (status_of resp = 400 <-> prompt_missing body) /\
    (prompt_missing body -> w' = w).
Proof.
  unfold prompt_missing.
  destruct (req_prompt body) as [p |] eqn:Hp.
  - destruct (String.eqb_spec p "") as [-> | Hne].
    + exists (JsonError 400 "Missing required field: prompt" None), w.
      unfold chat, try_catch. rewrite Hp. simpl. intuition.
    + rewrite (chat_on_lookup env body p w Hp Hne).
      assert (Hnot : ~ (Some p = None \/ Some p = Some "")) by (intros [H | H]; congruence).
      destruct (findSimilarCache (PromptCache_new env) p w) as [[[hit |] | e] w1];
        cbv zeta;
        try destruct (AI_text _ p _ _) as [text | e];
        try destruct (cacheResponse p text _ _) as [[[] | e] w4];
        eexists; eexists; (split; [reflexivity |]); simpl;
        (split; [tauto |]); (split; [split; [discriminate | tauto] | tauto]).
  - exists (JsonError 400 "Missing required field: prompt" None), w.
    unfold chat, try_catch. rewrite Hp. simpl. intuition.
Qed.

(** X12. A hit is answered from the cache alone: the response is the
    stored one with [cached: true] and the similarity; no text model is
    run, nothing is written to Redis, and the counter of hits is the
    only counter written: it receives what [parseInt] of its value, or of
    ["0"] when it has none, plus one prints as. *)
Theorem chat_hit_answers_from_cache (env : Env) (body : ChatRequest) (p : string)
    (w : World) (hit : CacheLookup) :
  req_prompt body = Some p -> p <> "" ->
  fst (findSimilarCache (PromptCache_new env) p w) = Returned (Some hit) ->
  exists w',
    chat env body w =
    (Returned (JsonChat 200 (mkChat (response (entry hit)) true (Some (similarity hit)) (clock w))),
     w') /\
    redis w' = redis w /\
    ai_calls w' = (ai_calls w ++ [EmbedCall EMBEDDING_MODEL p])%list /\
    CACHE_STATS w' = <["hits" := bumped (CACHE_STATS w !! "hits")]> (CACHE_STATS w).
Proof.
  intros Hp Hne Hhit. rewrite (chat_on_lookup env body p w Hp Hne).
  pose proof (findSimilarCache_world (PromptCache_new env) p w) as Hw.
  destruct (findSimilarCache (PromptCache_new env) p w) as [o w1].
  simpl in Hhit, Hw. subst o w1. eexists. split; [reflexivity |]. auto.
Qed.

(** The lookup throws for two reasons only: the embedding provider threw,
    or the database refused the [KEYS] command.  A record that cannot be
    read or parsed is passed by and throws nothing. *)
Lemma lookup_throws_only (cache : PromptCache) (p : string) (w : World) (e : exn) :
  fst (findSimilarCache cache p w) = Thrown e ->
  AI_embedding p = Thrown e \/
  exists q statusText,
    AI_embedding p = Returned q /\ redis_status w = Some statusText /\
    e = RedisError statusText.
Proof.
  intros Hfail. destruct (AI_embedding p) as [q | e'] eqn:Hq.
  - right. rewrite (findSimilarCache_embedded cache p w q Hq) in Hfail.
    destruct (redis_status w) as [statusText |]; [| discriminate Hfail].
    exists q, statusText. simpl in Hfail. injection Hfail as <-. auto.
  - left. rewrite (findSimilarCache_failed cache p w e' Hq) in Hfail.
    simpl in Hfail. congruence.
Qed.

(** X13. A failed lookup is not taken for a miss: when the lookup throws,
    the route answers 500 with the error's message; it does not run the
    text model and writes neither a counter nor a record.  The lookup
    throws only when the embedding provider threw or the database refused
    [KEYS]; a record that cannot be parsed is no such failure. *)
Theorem chat_lookup_failure_is_an_error (env : Env) (body : ChatRequest) (p : string)
    (w : World) (e : exn) :
  req_prompt body = Some p -> p <> "" ->
  fst (findSimilarCache (PromptCache_new env) p w) = Thrown e ->
  chat env body w =
  (Returned (JsonError 500 "Internal server error" (Some (message_of e))),
   with_ai_call (EmbedCall EMBEDDING_MODEL p) w) /\
  (AI_embedding p = Thrown e \/
   exists q statusText,
     AI_embedding p = Returned q /\ redis_status w = Some statusText /\
     e = RedisError statusText).
Proof.
  intros Hp Hne Hfail. split; [| exact (lookup_throws_only _ p w e Hfail)].
  rewrite (chat_on_lookup env body p w Hp Hne).
  pose proof (findSimilarCache_world (PromptCache_new env) p w) as Hw.
  destruct (findSimilarCache (PromptCache_new env) p w) as [o w1].
  simpl in Hfail, Hw. subst o w1. reflexivity.
Qed.

(** X14. A miss asks the model and caches the answer: the response is the
    model's text with [cached: false]; afterwards the record of the
    prompt, its embedding, the text and the model is stored under the
    key of the prompt and the time, the counter of misses is the only
    counter written, with what [parseInt] of its value plus one prints as,
    and the embedding model has run before and after the text model. *)
Theorem chat_miss_asks_and_caches (env : Env) (body : ChatRequest) (p text : string)
    (w : World) (q : list float) :
  req_prompt body = Some p -> p <> "" ->
  redis_status w = None ->
  AI_embedding p = Returned q ->
  fst (findSimilarCache (PromptCache_new env) p w) = Returned None ->
  let model_ := or_default (req_model body) "@cf/meta/llama-2-7b-chat-int8" in
  AI_text model_ p (max_tokens_or_default (req_max_tokens body))
    (temperature_or_default (req_temperature body)) = Returned text ->
  exists t w',
    chat env body w = (Returned (JsonChat 200 (mkChat text false None t)), w') /\
    redis w' = <[key_at p (clock w) := JSON_stringify (mkEntry p q text (clock w) model_)]> (redis w) /\
    ai_calls w' = (ai_calls w ++ [EmbedCall EMBEDDING_MODEL p; ChatCall model_ p;
                                  EmbedCall EMBEDDING_MODEL p])%list /\
    CACHE_STATS w' = <["misses" := bumped (CACHE_STATS w !! "misses")]> (CACHE_STATS w).
Proof.
  intros Hp Hne Hup Hq Hmiss model_ Htext. rewrite (chat_on_lookup env body p w Hp Hne).
  pose proof (findSimilarCache_world (PromptCache_new env) p w) as Hw.
  destruct (findSimilarCache (PromptCache_new env) p w) as [o w1].
  simpl in Hmiss, Hw. subst o w1. cbv zeta. fold model_. rewrite Htext.
  match goal with
  | |- context [cacheResponse p text model_ ?w3] =>
      rewrite (cacheResponse_run p text model_ w3 q Hq Hup)
  end.
  eexists. eexists. split; [reflexivity |]. simpl.
  rewrite <- !app_assoc. auto.
Qed.

(** X15. When the text model fails after a miss, the route answers 500
    with the model's error; the miss has been counted all the same, and
    no record is written. *)
Theorem chat_model_failure_counts_the_miss (env : Env) (body : ChatRequest) (p : string)
    (w : World) (e : exn) :
  req_prompt body = Some p -> p <> "" ->
  fst (findSimilarCache (PromptCache_new env) p w) = Returned None ->
  let model_ := or_default (req_model body) "@cf/meta/llama-2-7b-chat-int8" in
  AI_text model_ p (max_tokens_or_default (req_max_tokens body))
    (temperature_or_default (req_temperature body)) = Thrown e ->
  exists w',
    chat env body w =
    (Returned (JsonError 500 "Internal server error" (Some (message_of e))), w') /\
    redis w' = redis w /\
    CACHE_STATS w' = <["misses" := bumped (CACHE_STATS w !! "misses")]> (CACHE_STATS w).
Proof.
  intros Hp Hne Hmiss model_ Htext. rewrite (chat_on_lookup env body p w Hp Hne).
  pose proof (findSimilarCache_world (PromptCache_new env) p w) as Hw.
  destruct (findSimilarCache (PromptCache_new env) p w) as [o w1].
  simpl in Hmiss, Hw. subst o w1. cbv zeta. fold model_. rewrite Htext.
  eexists. split; [reflexivity |]. auto.
Qed.




(** ** The counters *)

(** X17. The counters count: [bump] writes ["1"] for a counter that is not
    there, the numeral of [n + 1] for a counter that holds the numeral of
    [n], and ["NaN"] for a counter that holds ["NaN"], which therefore
    stays ["NaN"]; it touches no other counter. *)
Theorem bump_counts (key : string) (w : World) :
  (CACHE_STATS w !! key = None -> CACHE_STATS (snd (bump key w)) !! key = Some "1") /\
  (forall n, 0 <= n < 2 ^ 53 - 1 -> CACHE_STATS w !! key = Some (decimal n) ->
             CACHE_STATS (snd (bump key w)) !! key = Some (decimal (n + 1))) /\
  (CACHE_STATS w !! key = Some "NaN" -> CACHE_STATS (snd (bump key w)) !! key = Some "NaN") /\
  (forall other, other <> key ->
                 CACHE_STATS (snd (bump key w)) !! other = CACHE_STATS w !! other).
Proof.
  rewrite bump_run. cbn [snd]. simpl CACHE_STATS. repeat split.
  - intros ->. rewrite lookup_insert_eq. reflexivity.
  - intros n Hn ->. rewrite lookup_insert_eq. unfold bumped, or_default.
    destruct (String.eqb_spec (decimal n) "") as [E | _].
    + apply (f_equal parseInt) in E. rewrite parseInt_decimal in E. discriminate E.
    + rewrite parseInt_decimal. unfold succ_toString.
      replace ((- 2 ^ 53 <=? n) && (n <? 2 ^ 53 - 1))%bool with true; [reflexivity |].
      symmetry. apply andb_true_iff. split; [apply Z.leb_le | apply Z.ltb_lt]; lia.
  - intros ->. rewrite lookup_insert_eq. reflexivity.
  - intros other Hne. rewrite lookup_insert_ne by auto. reflexivity.
Qed.

(** ** The gateway of [index.ts] *)

Lemma startsWith_cons (m p : string) (c : ascii) :
  startsWith m (String c p) = true -> exists m', m = String c m' /\ startsWith m' p = true.
Proof.
  unfold startsWith. destruct m as [| b m']; simpl; [discriminate |].
  destruct (ascii_dec c b) as [<- |]; [| discriminate]. eauto.
Qed.

Lemma startsWith_append (p s : string) : startsWith (p +:+ s) p = true.
Proof.
  unfold startsWith. induction p as [| c p IH]; [destruct s; reflexivity |].
  change (String c p +:+ s) with (String c (p +:+ s)). simpl.
  destruct (ascii_dec c c); [exact IH | congruence].
Qed.

Lemma slice_from_append (p s : string) : slice_from (String.length p) (p +:+ s) = s.
Proof. induction p as [| c p IH]; [destruct s; reflexivity | exact IH]. Qed.

Lemma startsWith_empty (s : string) : startsWith s "" = true.
Proof. destruct s; reflexivity. Qed.

(** Two prefixes of one string: one is a prefix of the other. *)
Lemma startsWith_comparable (m p1 p2 : string) :
  startsWith m p1 = true -> startsWith m p2 = true ->
  (startsWith p1 p2 || startsWith p2 p1)%bool = true.
Proof.
  revert p1 p2. induction m as [| c m IH]; intros p1 p2 H1 H2.
  - destruct p1; [| discriminate]. rewrite (startsWith_empty p2). apply orb_true_r.
  - destruct p1 as [| a p1]; [rewrite (startsWith_empty p2); apply orb_true_r |].
    destruct p2 as [| b p2]; [rewrite (startsWith_empty (String a p1)); reflexivity |].
    unfold startsWith in *. simpl in *.
    destruct (ascii_dec a c) as [-> |]; [| discriminate].
    destruct (ascii_dec b c) as [-> |]; [| discriminate].
    destruct (ascii_dec c c); [| congruence]. apply IH; assumption.
Qed.

Lemma startsWith_apart (m p1 p2 : string) :
  (startsWith p1 p2 || startsWith p2 p1)%bool = false ->
  startsWith m p1 = true -> startsWith m p2 = false.
Proof.
  intros Hapart H1. destruct (startsWith m p2) eqn:H2; [| reflexivity].
  rewrite (startsWith_comparable m p1 p2 H1 H2) in Hapart. discriminate.
Qed.

Ltac apart H :=
  match type of H with
  | startsWith ?m ?p1 = true =>
      repeat match goal with
             | |- context [startsWith m ?p2] =>
                 rewrite (startsWith_apart m p1 p2 eq_refl H)
             end
  end.

Ltac classify :=
  simpl; repeat split; intros;
  try discriminate; try reflexivity;
  repeat match goal with H : _ /\ _ |- _ => destruct H end;
  try discriminate.

(** X18. The tests of [getModelConfig] exclude one another: the provider
    is Anthropic exactly for the models that start with [anthropic/] or
    [claude-], OpenAI exactly for [openai/] or [gpt-], Google exactly for
    [google/] or [gemini-], each with the key of that provider, whatever the
    order of the tests; and a model goes to Workers AI exactly when none of
    the six prefixes fits, so that the test for [@cf/] changes nothing. *)
Theorem getModelConfig_classifies (model_ : string) (env : GatewayEnv) :
  let config := getModelConfig model_ env in
  let named prefixed bare := (startsWith model_ prefixed || startsWith model_ bare)%bool in
  (config = mkConfig false (Some "anthropic") (ANTHROPIC_API_KEY env) <->
   named "anthropic/" "claude-" = true) /\
  (config = mkConfig false (Some "openai") (OPENAI_API_KEY env) <->
   named "openai/" "gpt-" = true) /\
  (config = mkConfig false (Some "google") (GOOGLE_AI_STUDIO_TOKEN env) <->
   named "google/" "gemini-" = true) /\
  (config = mkConfig true None None <->
   named "anthropic/" "claude-" = false /\ named "openai/" "gpt-" = false /\
   named "google/" "gemini-" = false).
Proof.
  cbv zeta. unfold getModelConfig.
  destruct (startsWith model_ "@cf/") eqn:Hcf.
  { apart Hcf. classify. }
  destruct (startsWith model_ "anthropic/") eqn:Ha1.
  { apart Ha1. classify. }
  destruct (startsWith model_ "claude-") eqn:Ha2.
  { apart Ha2. classify. }
  destruct (startsWith model_ "openai/") eqn:Ho1.
  { apart Ho1. classify. }
  destruct (startsWith model_ "gpt-") eqn:Ho2.
  { apart Ho2. classify. }
  destruct (startsWith model_ "google/") eqn:Hg1.
  { apart Hg1. classify. }
  destruct (startsWith model_ "gemini-") eqn:Hg2.
  { classify. }
  classify.
Qed.

Lemma getModelConfig_prefixed (prefixed m : string) (env : GatewayEnv) :
  In prefixed ["anthropic/"; "openai/"; "google/"] ->
  getModelConfig (prefixed +:+ m) env =
  mkConfig false
    (Some (if String.eqb prefixed "anthropic/" then "anthropic"
           else if String.eqb prefixed "openai/" then "openai" else "google"))
    (if String.eqb prefixed "anthropic/" then ANTHROPIC_API_KEY env
     else if String.eqb prefixed "openai/" then OPENAI_API_KEY env
     else GOOGLE_AI_STUDIO_TOKEN env).
Proof.
  intros [<- | [<- | [<- | []]]]; unfold getModelConfig;
    match goal with
    | |- context [startsWith (?p +:+ m) _] =>
        pose proof (startsWith_append p m) as Hp; apart Hp; rewrite ?Hp
    end; reflexivity.
Qed.

Lemma getModelConfig_bare (bare m : string) (env : GatewayEnv) :
  In bare ["claude-"; "gpt-"; "gemini-"] ->
  startsWith m bare = true ->
  getModelConfig m env =
  mkConfig false
    (Some (if String.eqb bare "claude-" then "anthropic"
           else if String.eqb bare "gpt-" then "openai" else "google"))
    (if String.eqb bare "claude-" then ANTHROPIC_API_KEY env
     else if String.eqb bare "gpt-" then OPENAI_API_KEY env
     else GOOGLE_AI_STUDIO_TOKEN env).
Proof.
  intros [<- | [<- | [<- | []]]] Hp; unfold getModelConfig; apart Hp; rewrite ?Hp;
    reflexivity.
Qed.

(** X19. The two spellings of a model reach the provider alike: for a
    model [m] that starts with [claude-], [gpt-] or [gemini-],
    [callModelGateway] does the same with [m] and with [m] behind the prefix
    of its provider ([anthropic/], [openai/], [google/]): the same request
    with the same model name, or the same error. *)
Theorem provider_spellings_agree (prefixed bare m prompt_ : string) (maxTokens : Z)
    (temperature : float) (env : GatewayEnv) (w : World) :
  In (prefixed, bare) [("anthropic/", "claude-"); ("openai/", "gpt-"); ("google/", "gemini-")] ->
  startsWith m bare = true ->
  callModelGateway (prefixed +:+ m) prompt_ maxTokens temperature env w =
  callModelGateway m prompt_ maxTokens temperature env w.
Proof.
  intros Hin Hm. unfold callModelGateway.
  destruct Hin as [Heq | [Heq | [Heq | []]]]; injection Heq as <- <-.
  - rewrite (getModelConfig_prefixed "anthropic/" m env) by (simpl; auto).
    rewrite (getModelConfig_bare "claude-" m env) by (simpl; auto). simpl.
    unfold anthropic_model_name.
    rewrite (startsWith_append "anthropic/" m).
    rewrite (startsWith_apart m "claude-" "anthropic/" eq_refl Hm).
    change 10%nat with (String.length "anthropic/"). rewrite slice_from_append. reflexivity.
  - rewrite (getModelConfig_prefixed "openai/" m env) by (simpl; auto).
    rewrite (getModelConfig_bare "gpt-" m env) by (simpl; auto). simpl.
    unfold openai_model_name.
    rewrite (startsWith_append "openai/" m).
    rewrite (startsWith_apart m "gpt-" "openai/" eq_refl Hm). reflexivity.
  - rewrite (getModelConfig_prefixed "google/" m env) by (simpl; auto).
    rewrite (getModelConfig_bare "gemini-" m env) by (simpl; auto). simpl.
    unfold google_model_name.
    rewrite (startsWith_append "google/" m).
    rewrite (startsWith_apart m "gemini-" "google/" eq_refl Hm).
    change 7%nat with (String.length "google/"). rewrite slice_from_append. reflexivity.
Qed.

(** The route of [index.ts], read on the result of the lookup. *)
Lemma chat_gateway_on_lookup (env : Env) (genv : GatewayEnv) (body : ChatRequest) (p : string)
    (w : World) :
  req_prompt body = Some p -> p <> "" ->
  chat_gateway env genv body w =
  match findSimilarCache (PromptCache_new env) p w with
  | (Thrown e, w1) => (Returned (JsonError 500 "Internal server error" (Some (message_of e))), w1)
  | (Returned (Some hit), w1) =>
      (Returned (JsonChat 200 (mkChat (response (entry hit)) true (Some (similarity hit))
                                 (clock w1))),
       with_stats (insert "hits" (bumped (CACHE_STATS w1 !! "hits"))) w1)
  | (Returned None, w1) =>
      let model_ := or_default (req_model body) "@cf/meta/llama-2-7b-chat-int8" in
      let w2 := with_stats (insert "misses" (bumped (CACHE_STATS w1 !! "misses"))) w1 in
      match callModelGateway model_ p (max_tokens_or_default (req_max_tokens body))
              (temperature_or_default (req_temperature body)) genv w2 with
      | (Thrown e, w3) =>
          (Returned (JsonError 500 "Internal server error" (Some (message_of e))), w3)
      | (Returned responseText, w3) =>
          match cacheResponse p responseText model_ w3 with
          | (Thrown e, w4) =>
              (Returned (JsonError 500 "Internal server error" (Some (message_of e))), w4)
          | (Returned _, w4) =>
              (Returned (JsonChat 200 (mkChat responseText false None (clock w4))), w4)
          end
      end
  end.
Proof.
  intros Hp Hne. unfold chat_gateway, try_catch. rewrite Hp.
  destruct (String.eqb_spec p ""); [contradiction |].
  unfold bind at 1.
  destruct (findSimilarCache (PromptCache_new env) p w) as [[[hit |] | e] w1]; try reflexivity.
  cbv zeta. unfold bind at 1. unfold bump at 1. unfold bind at 1.
  unfold KV_get, KV_put. cbv beta iota. unfold bind at 1.
  fold (bumped (CACHE_STATS w1 !! "misses")).
  destruct (callModelGateway _ p _ _ genv _) as [[text | e] w3]; [| reflexivity].
  unfold bind at 1.
  destruct (cacheResponse p text _ w3) as [[[] | e] w4]; reflexivity.
Qed.

Lemma callModelGateway_workers_ai (model_ prompt_ : string) (maxTokens : Z)
    (temperature : float) (genv : GatewayEnv) (w : World) :
  isWorkersAI (getModelConfig model_ genv) = true ->
  truthy (GATEWAY_NAME genv) = false ->
  callModelGateway model_ prompt_ maxTokens temperature genv w =
  (AI_run_text None model_ prompt_ maxTokens temperature,
   with_ai_call (ChatCall model_ prompt_) w).
Proof.
  intros Hc Hg. unfold callModelGateway. rewrite Hc, Hg. reflexivity.
Qed.

Lemma callModelGateway_external_world (model_ prompt_ : string) (maxTokens : Z)
    (temperature : float) (genv : GatewayEnv) (w : World) :
  isWorkersAI (getModelConfig model_ genv) = false ->
  snd (callModelGateway model_ prompt_ maxTokens temperature genv w) = w.
Proof.
  intros Hc. unfold callModelGateway. rewrite Hc.
  destruct (negb (truthy (apiKey _))); [reflexivity |].
  destruct (negb (truthy (GATEWAY_ACCOUNT_ID genv)) || negb (truthy (GATEWAY_NAME genv)))%bool;
    reflexivity.
Qed.

(** X20. With no gateway named, the route of [index.ts] answers a Workers
    AI model as the route without the gateway does, given that the binding
    runs a model the same with an empty options object as with none: same
    response, same records, same counters, same calls.  This covers every
    request that names no model. *)
Theorem chat_gateway_agrees_on_workers_ai (env : Env) (genv : GatewayEnv) (body : ChatRequest)
    (w : World) :
  (forall m p mt t, AI_run_text None m p mt t = AI_text m p mt t) ->
  truthy (GATEWAY_NAME genv) = false ->
  isWorkersAI (getModelConfig (or_default (req_model body) "@cf/meta/llama-2-7b-chat-int8")
                 genv) = true ->
  chat_gateway env genv body w = chat env body w.
Proof.
  intros Hrun Hg Hc. destruct (req_prompt body) as [p |] eqn:Hp.
  - destruct (String.eqb_spec p "") as [-> | Hne].
    + unfold chat_gateway, chat. rewrite Hp. reflexivity.
    + rewrite (chat_gateway_on_lookup env genv body p w Hp Hne).
      rewrite (chat_on_lookup env body p w Hp Hne).
      destruct (findSimilarCache (PromptCache_new env) p w) as [[[hit |] | e] w1];
        try reflexivity.
      cbv zeta. rewrite (callModelGateway_workers_ai _ _ _ _ _ _ Hc Hg), Hrun. reflexivity.
  - unfold chat_gateway, chat. rewrite Hp. reflexivity.
Qed.

(** X21. Only a miss consults the model: when the prompt is missing, when
    the lookup fails and when it hits, the route of [index.ts] answers as
    the route without the gateway does, whatever the model named and
    whatever the configuration of the gateway and of the providers; so a hit
    is answered for a provider that has no key. *)
Theorem chat_gateway_differs_only_on_a_miss (env : Env) (genv : GatewayEnv)
    (body : ChatRequest) (w : World) :
  (forall p, req_prompt body = Some p -> p <> "" ->
             fst (findSimilarCache (PromptCache_new env) p w) <> Returned None) ->
  chat_gateway env genv body w = chat env body w.
Proof.
  intros Hlookup. destruct (req_prompt body) as [p |] eqn:Hp.
  - destruct (String.eqb_spec p "") as [-> | Hne].
    + unfold chat_gateway, chat. rewrite Hp. reflexivity.
    + rewrite (chat_gateway_on_lookup env genv body p w Hp Hne).
      rewrite (chat_on_lookup env body p w Hp Hne).
      specialize (Hlookup p eq_refl Hne).
      destruct (findSimilarCache (PromptCache_new env) p w) as [[[hit |] | e] w1];
        try reflexivity.
      contradiction Hlookup. reflexivity.
  - unfold chat_gateway, chat. rewrite Hp. reflexivity.
Qed.

(** X22. A miss for a provider that is not configured: when the model
    named belongs to an outside provider, a miss is answered with status 500
    and no model is asked; the details name the provider when its key is
    missing, also when the gateway is not configured either, and say that the
    gateway configuration is missing when only that is.  The miss is counted,
    nothing is stored, and the only call of the binding is the embedding of
    the lookup. *)
Theorem chat_gateway_unconfigured_provider (env : Env) (genv : GatewayEnv) (body : ChatRequest)
    (p name : string) (w : World) :
  req_prompt body = Some p -> p <> "" ->
  fst (findSimilarCache (PromptCache_new env) p w) = Returned None ->
  let config :=
    getModelConfig (or_default (req_model body) "@cf/meta/llama-2-7b-chat-int8") genv in
  provider config = Some name ->
  (truthy (apiKey config) && truthy (GATEWAY_ACCOUNT_ID genv) &&
   truthy (GATEWAY_NAME genv))%bool = false ->
  let details :=
    if truthy (apiKey config) then
      "Gateway configuration missing. Set GATEWAY_ACCOUNT_ID and GATEWAY_NAME."
    else "API key not configured for provider: " +:+ name in
  exists w',
    chat_gateway env genv body w =
    (Returned (JsonError 500 "Internal server error" (Some details)), w') /\
    In name ["anthropic"; "openai"; "google"] /\
    redis w' = redis w /\
    ai_calls w' = (ai_calls w ++ [EmbedCall EMBEDDING_MODEL p])%list /\
    CACHE_STATS w' = <["misses" := bumped (CACHE_STATS w !! "misses")]> (CACHE_STATS w).
Proof.
  intros Hp Hne Hmiss config Hname Hconf details.
  rewrite (chat_gateway_on_lookup env genv body p w Hp Hne).
  pose proof (findSimilarCache_world (PromptCache_new env) p w) as Hw.
  destruct (findSimilarCache (PromptCache_new env) p w) as [o w1].
  simpl in Hmiss, Hw. subst o w1. cbv zeta. fold config.
  assert (isWorkersAI config = false /\ In name ["anthropic"; "openai"; "google"])
    as [Hext Hin].
  { revert Hname. unfold config, getModelConfig.
    repeat match goal with
           | |- context [if ?b then _ else _] => destruct b
           end; simpl; intros Heq; inversion Heq; auto. }
  unfold callModelGateway. fold config. rewrite Hext, Hname. subst details.
  destruct (truthy (apiKey config)).
  - simpl in Hconf. simpl.
    destruct (truthy (GATEWAY_ACCOUNT_ID genv)), (truthy (GATEWAY_NAME genv));
      try discriminate; simpl; eexists; (split; [reflexivity |]); auto.
  - simpl. eexists. split; [reflexivity |]. auto.
Qed.

Lemma callModelGateway_external_result (model_ prompt_ : string) (maxTokens : Z)
    (temperature : float) (genv : GatewayEnv) (w w' : World) :
  isWorkersAI (getModelConfig model_ genv) = false ->
  callModelGateway model_ prompt_ maxTokens temperature genv w' =
  (fst (callModelGateway model_ prompt_ maxTokens temperature genv w), w').
Proof.
  intros Hc. unfold callModelGateway. rewrite Hc.
  destruct (negb (truthy (apiKey _))); [reflexivity |].
  destruct (negb (truthy (GATEWAY_ACCOUNT_ID genv)) || negb (truthy (GATEWAY_NAME genv)))%bool;
    reflexivity.
Qed.

(** X23. A miss answered by an outside provider: when the model named is
    not a Workers AI model and [callModelGateway] returns a text for it, a
    miss is answered with status 200, that text and [cached: false]; the
    record is stored with the model as the request spelled it, the miss is
    counted, and the binding is called for the two embeddings only, not for
    a text. *)
Theorem chat_gateway_outside_provider_miss (env : Env) (genv : GatewayEnv)
    (body : ChatRequest) (p text : string) (w : World) (q : list float) :
  req_prompt body = Some p -> p <> "" ->
  redis_status w = None ->
  AI_embedding p = Returned q ->
  fst (findSimilarCache (PromptCache_new env) p w) = Returned None ->
  let model_ := or_default (req_model body) "@cf/meta/llama-2-7b-chat-int8" in
  isWorkersAI (getModelConfig model_ genv) = false ->
  fst (callModelGateway model_ p (max_tokens_or_default (req_max_tokens body))
         (temperature_or_default (req_temperature body)) genv w) = Returned text ->
  exists t w',
    chat_gateway env genv body w = (Returned (JsonChat 200 (mkChat text false None t)), w') /\
    redis w' = <[key_at p (clock w) := JSON_stringify (mkEntry p q text (clock w) model_)]> (redis w) /\
    ai_calls w' = (ai_calls w ++ [EmbedCall EMBEDDING_MODEL p; EmbedCall EMBEDDING_MODEL p])%list /\
    CACHE_STATS w' = <["misses" := bumped (CACHE_STATS w !! "misses")]> (CACHE_STATS w).
Proof.
  intros Hp Hne Hup Hq Hmiss model_ Hext Htext.
  rewrite (chat_gateway_on_lookup env genv body p w Hp Hne).
  pose proof (findSimilarCache_world (PromptCache_new env) p w) as Hw.
  destruct (findSimilarCache (PromptCache_new env) p w) as [o w1].
  simpl in Hmiss, Hw. subst o w1. cbv zeta. fold model_.
  rewrite (callModelGateway_external_result model_ p _ _ genv w _ Hext), Htext.
  match goal with
  | |- context [cacheResponse p text model_ ?w3] =>
      rewrite (cacheResponse_run p text model_ w3 q Hq Hup)
  end.
  eexists. eexists. split; [reflexivity |]. simpl.
  rewrite <- !app_assoc. auto.
Qed.

(** X24. What a request asks of the model plays no part unless the lookup
    misses: two requests with the same prompt that differ in [model],
    [max_tokens] and [temperature] are answered alike, with the same effects,
    when the lookup hits or fails; a response cached for one model is served
    to a request that names another. *)
Theorem chat_gateway_hit_ignores_the_model (env : Env) (genv : GatewayEnv)
    (body body' : ChatRequest) (w : World) :
  req_prompt body = req_prompt body' ->
  (forall p, req_prompt body = Some p -> p <> "" ->
             fst (findSimilarCache (PromptCache_new env) p w) <> Returned None) ->
  chat_gateway env genv body w = chat_gateway env genv body' w.
Proof.
  intros Hsame Hlookup. destruct (req_prompt body) as [p |] eqn:Hp.
  - destruct (String.eqb_spec p "") as [-> | Hne].
    + unfold chat_gateway. rewrite Hp, <- Hsame. reflexivity.
    + rewrite (chat_gateway_on_lookup env genv body p w Hp Hne).
      rewrite (chat_gateway_on_lookup env genv body' p w (eq_sym Hsame) Hne).
      specialize (Hlookup p eq_refl Hne).
      destruct (findSimilarCache (PromptCache_new env) p w) as [[[hit |] | e] w1];
        try reflexivity.
      contradiction Hlookup. reflexivity.
  - unfold chat_gateway. rewrite Hp, <- Hsame. reflexivity.
Qed.

End Worker.

(** * The properties on the example services *)

Local Abbreviation parse := (table_parse example_documents).
Local Abbreviation stringify := (table_stringify example_documents).
Local Abbreviation embed := (table_embedding example_embeddings).
Local Abbreviation default_cache := (PromptCache_new parseFloat_of (mkEnv None)).
Local Abbreviation strict_cache := (PromptCache_new parseFloat_of (mkEnv (Some "1"))).
Local Abbreviation e1 := [1%float; 0%float; 0%float].
Local Abbreviation threshold_085 := 0x1.b333333333333p-1%float.

Lemma keyspace_of_enumerates : enumerates keyspace_of.
Proof.
  intros db k. unfold keyspace_of. rewrite in_map_iff. split.
  - intros [[k' v] [Hk Hin]]. simpl in Hk. subst k'.
    apply list_elem_of_In, elem_of_map_to_list in Hin. eauto.
  - intros [v Hv]. exists (k, v). split; [reflexivity |].
    apply list_elem_of_In, elem_of_map_to_list, Hv.
Qed.

Lemma keyspace_rev_enumerates : enumerates keyspace_rev.
Proof.
  intros db k. unfold keyspace_rev. rewrite <- in_rev. apply keyspace_of_enumerates.
Qed.

(** An instance of [store_then_lookup_hits]: Paris is stored next to Rome
    and found again. *)
Lemma store_then_lookup_hits_example :
  fst (cacheResponse keyspace_of stringify embed france "Paris" LLAMA only_rome) = Returned tt /\
  fst (findSimilarCache keyspace_of parse embed default_cache france
         (snd (cacheResponse keyspace_of stringify embed france "Paris" LLAMA only_rome))) =
  Returned (Some (mkLookup (paris_at 1700000000000) (cosineSimilarity e1 e1))) /\
  response (paris_at 1700000000000) = "Paris".
Proof.
  apply (store_then_lookup_hits keyspace_of stringify parse embed default_cache
           france "Paris" LLAMA only_rome e1).
  - exact keyspace_of_enumerates.
  - reflexivity.
  - reflexivity.
  - discriminate.
  - reflexivity.
  - vm_compute. reflexivity.
  - intros key text e' _ Hdoc Hparse. simpl in Hdoc.
    apply lookup_singleton_Some in Hdoc as [_ <-].
    vm_compute in Hparse. inversion Hparse. vm_compute. reflexivity.
Defined.

(** Storing and looking up again can miss, or hit another response: a
    zero embedding is not found again under the default threshold; the
    embedding [1, 1] has similarity 0.9999999999999998 with itself and is
    not found again under the threshold 1; and an older record of the
    same prompt, enumerated first, answers in place of the one just
    stored. *)
Lemma store_then_lookup_misses :
  (Num.ge 1%float (similarityThreshold default_cache) = true /\
   fst (cacheResponse keyspace_of stringify embed "zero" "nothing" LLAMA (started_at 1700000000000))
   = Returned tt /\
   fst (findSimilarCache keyspace_of parse embed default_cache "zero"
          (snd (cacheResponse keyspace_of stringify embed "zero" "nothing" LLAMA
                  (started_at 1700000000000)))) = Returned None) /\
  (Num.ge 1%float (similarityThreshold strict_cache) = true /\
   cosineSimilarity [1%float; 1%float] [1%float; 1%float] = 0x1.ffffffffffffep-1%float /\
   fst (findSimilarCache keyspace_of parse embed strict_cache "hi"
          (snd (cacheResponse keyspace_of stringify embed "hi" "hello" LLAMA
                  (started_at 1700000000000)))) = Returned None) /\
  (fst (cacheResponse keyspace_rev stringify embed france "Paris" LLAMA asked_before)
   = Returned tt /\
   fst (findSimilarCache keyspace_rev parse embed default_cache france
          (snd (cacheResponse keyspace_rev stringify embed france "Paris" LLAMA asked_before)))
   = Returned (Some (mkLookup lyon 1%float)) /\
   response lyon = "Lyon").
Proof. vm_compute. repeat split. Qed.

(** An instance of [search_keeps_threshold]: of Paris and Rome, the search for Paris under the
    default threshold returns Paris alone, with score 1. *)
Lemma search_keeps_threshold_example :
  Forall (fun r => Num.ge (score r) threshold_085 = true)
         [mkResult "cache:paris" 1%float (paris_at 1700000000000)].
Proof.
  apply List.Forall_forall. intros r Hr.
  apply (search_keeps_threshold keyspace_of parse e1 threshold_085 (Some 5)
           two_capitals two_capitals
           [mkResult "cache:paris" 1%float (paris_at 1700000000000)]).
  - vm_compute. reflexivity.
  - exact Hr.
Defined.

(** An instance of [search_sorted_by_score]: under the threshold 0 both capitals are returned,
    Paris (score 1) before Rome (score 0). *)
Lemma search_sorted_by_score_example :
  StronglySorted descending
    [mkResult "cache:paris" 1%float (paris_at 1700000000000); mkResult "cache:rome" 0%float rome] /\
  forall c, exists later,
    with_score c (matches parse (redis two_capitals) e1 0%float (cache_keys keyspace_of (redis two_capitals))) =
    (with_score c [mkResult "cache:paris" 1%float (paris_at 1700000000000);
                   mkResult "cache:rome" 0%float rome] ++ later)%list.
Proof.
  apply (search_sorted_by_score keyspace_of parse e1 0%float (Some 5) two_capitals two_capitals).
  vm_compute. reflexivity.
Defined.

(** Ties are not ordered by id: two records of equal score come back in
    the order of the enumeration, here ["cache:b"] before ["cache:a"]. *)
Lemma search_ties_follow_enumeration :
  fst (searchSimilar keyspace_rev parse e1 threshold_085 (Some 2) twice_france) =
  Returned [mkResult "cache:b" 1%float (paris_at 1700000000000);
            mkResult "cache:a" 1%float (paris_at 1700000000000)] /\
  String.compare "cache:b" "cache:a" = Gt.
Proof. vm_compute. split; reflexivity. Qed.

(** An instance of [miss_then_store_embeds_twice]: a first question about
    France. *)
Lemma miss_then_store_embeds_twice_example :
  embedding_calls france
    (snd (findSimilarCache keyspace_of parse embed default_cache france (started_at 1700000000000)))
  = 1%nat /\
  embedding_calls france
    (snd (cacheResponse keyspace_of stringify embed france "Paris" LLAMA
            (snd (findSimilarCache keyspace_of parse embed default_cache france
                    (started_at 1700000000000)))))
  = 2%nat.
Proof.
  apply (miss_then_store_embeds_twice keyspace_of stringify parse embed default_cache
           france "Paris" LLAMA (started_at 1700000000000) _ _ (Returned tt)).
  - vm_compute. reflexivity.
  - vm_compute. reflexivity.
Defined.

(** The prompt is embedded more than once: the [/chat] route, on a first
    question, runs the
    embedding model on the prompt twice, once for the lookup and once
    for the store. *)
Lemma chat_miss_embeds_twice :
  fst (chat keyspace_of stringify parse embed (canned_text "Paris") parseFloat_of stuck_counter (mkEnv None)
         (mkRequest (Some france) None None None) (started_at 1700000000000)) =
  Returned (JsonChat 200 (mkChat "Paris" false None 1700000000000)) /\
  ai_calls (snd (chat keyspace_of stringify parse embed (canned_text "Paris") parseFloat_of stuck_counter
                   (mkEnv None) (mkRequest (Some france) None None None)
                   (started_at 1700000000000))) =
  [EmbedCall EMBEDDING_MODEL france; ChatCall LLAMA france; EmbedCall EMBEDDING_MODEL france] /\
  embedding_calls france
    (snd (chat keyspace_of stringify parse embed (canned_text "Paris") parseFloat_of stuck_counter
            (mkEnv None) (mkRequest (Some france) None None None)
            (started_at 1700000000000))) = 2%nat.
Proof. vm_compute. repeat split. Qed.



(** [store] rejects nothing: a record with the empty embedding is written. *)
Lemma store_accepts_empty_embedding :
  embedding empty_entry = [] /\
  fst (store keyspace_of stringify "e" empty_entry (started_at 1700000000000)) = Returned tt /\
  redis (snd (store keyspace_of stringify "e" empty_entry (started_at 1700000000000)))
    !! "cache:e" = Some "{empty}".
Proof. vm_compute. repeat split. Qed.

(** Instances of [lookup_passes_provider_error_on]: the provider knows no
    embedding of the prompt; and the provider returns a vector with a NaN
    in it, which is a miss under the default threshold. *)
Lemma lookup_passes_provider_error_on_example :
  findSimilarCache keyspace_of parse embed default_cache "unknown" two_capitals =
  (Thrown (AiError "embedding model unavailable"),
   with_ai_call (EmbedCall EMBEDDING_MODEL "unknown") two_capitals) /\
  findSimilarCache keyspace_of parse embed default_cache "not a number" two_capitals =
  (Returned None, with_ai_call (EmbedCall EMBEDDING_MODEL "not a number") two_capitals).
Proof.
  split.
  - apply (proj1 (lookup_passes_provider_error_on keyspace_of parse embed default_cache
                    "unknown" two_capitals)).
    reflexivity.
  - apply (proj2 (proj2 (lookup_passes_provider_error_on keyspace_of parse embed default_cache
                           "not a number" two_capitals))
             [nan; 1%float; 0%float]); vm_compute; reflexivity.
Defined.

(** Malformed vectors are not errors: the empty vector, a vector with
    a NaN in it and a vector with an infinity in it
    are looked up like any other and reported as misses. *)
Lemma lookup_of_malformed_embedding_misses :
  embed "empty" = Returned [] /\
  fst (findSimilarCache keyspace_of parse embed default_cache "empty" two_capitals) = Returned None /\
  embed "not a number" = Returned [nan; 1%float; 0%float] /\
  fst (findSimilarCache keyspace_of parse embed default_cache "not a number" two_capitals)
  = Returned None /\
  fst (findSimilarCache keyspace_of parse
         (constant_embedding [infinity; 1%float; 0%float]) default_cache france two_capitals)
  = Returned None.
Proof. vm_compute. repeat split. Qed.

(** An instance of [search_skips_corrupt_record]: next to a document that is not JSON, Paris and Rome
    are both returned. *)
Lemma search_skips_corrupt_record_example :
  parse "{not json" = None /\
  searchSimilar keyspace_of parse e1 0%float (Some 5) with_broken_document =
  (Returned [mkResult "cache:paris" 1%float (paris_at 1700000000000);
             mkResult "cache:rome" 0%float rome],
   with_broken_document).
Proof.
  split; [reflexivity |].
  pose proof (search_skips_corrupt_record keyspace_of parse e1 0%float (Some 5)
                with_broken_document "cache:broken" "{not json"
                keyspace_of_enumerates eq_refl
                ltac:(vm_compute; reflexivity) ltac:(vm_compute; reflexivity)) as H.
  cbv zeta in H. destruct H as [H _]. rewrite H. vm_compute. reflexivity.
Defined.

(** An instance of [lookup_leaves_store_unchanged]: the zero vector matches neither capital, and the
    fourth lookup in a row is a miss like the first. *)
Lemma lookup_leaves_store_unchanged_example :
  redis (snd (findSimilarCache keyspace_of parse embed default_cache "zero" two_capitals)) =
  redis two_capitals /\
  fst (findSimilarCache keyspace_of parse embed default_cache "zero"
         (lookups keyspace_of parse embed default_cache "zero" 3 two_capitals)) = Returned None.
Proof.
  pose proof (lookup_leaves_store_unchanged keyspace_of parse embed default_cache "zero"
                two_capitals) as (H1 & _ & H3).
  split; [exact H1 |].
  apply (H3 [0%float; 0%float; 0%float]); try reflexivity.
  intros key. unfold match_of.
  destruct (redis two_capitals !! key) as [text |] eqn:E; [| reflexivity].
  simpl in E.
  apply lookup_insert_Some in E as [[_ <-] | [_ E]]; [vm_compute; reflexivity |].
  apply lookup_insert_Some in E as [[_ <-] | [_ E]]; [vm_compute; reflexivity |].
  rewrite lookup_empty in E. discriminate E.
Defined.

(** An instance of [search_reports_prefixed_key]: the record stored as ["a"] is reported as
    ["cache:a"]. *)
Lemma search_reports_prefixed_key_example :
  fst (searchSimilar keyspace_of parse e1 threshold_085 (Some 1)
         (snd (store keyspace_of stringify "a" (paris_at 1700000000000)
                 (started_at 1700000000000)))) =
  Returned [mkResult "cache:a" 1%float (paris_at 1700000000000)] /\
  "cache:a" <> "a".
Proof.
  pose proof (search_reports_prefixed_key keyspace_of stringify parse "a"
                (paris_at 1700000000000) (started_at 1700000000000)
                keyspace_of_enumerates eq_refl) as H.
  cbv zeta in H. destruct H as (_ & _ & Hne & _).
  split; [vm_compute; reflexivity | exact Hne].
Defined.

(** With the limit 1 the better of two matches is returned alone. *)
Lemma search_limit_one_example :
  fst (searchSimilar keyspace_of parse e1 0%float (Some 1) two_capitals) =
  Returned [mkResult "cache:paris" 1%float (paris_at 1700000000000)] /\
  fst (searchSimilar keyspace_of parse e1 0%float None two_capitals) =
  Returned [mkResult "cache:paris" 1%float (paris_at 1700000000000)] /\
  fst (searchSimilar keyspace_of parse e1 0%float (Some (-1)) two_capitals) =
  Returned [mkResult "cache:paris" 1%float (paris_at 1700000000000)] /\
  fst (searchSimilar keyspace_of parse [0%float; 1%float; 0%float] threshold_085 (Some 1)
         two_capitals) =
  Returned [mkResult "cache:rome" 1%float rome].
Proof. vm_compute. repeat split. Qed.

(** * The further properties on the example services *)

Local Abbreviation ask_france := (mkRequest (Some france) None None None).
Local Abbreviation ask_haiku := (mkRequest (Some france) (Some HAIKU) None None).
Local Abbreviation paris_result := (mkResult "cache:paris" 1%float (paris_at 1700000000000)).

Lemma keyspace_of_enumerates_once : enumerates_once keyspace_of.
Proof.
  intros db. unfold keyspace_of.
  replace (map fst (map_to_list db)) with ((map_to_list db).*1).
  - apply NoDup_ListNoDup, NoDup_fst_map_to_list.
  - induction (map_to_list db) as [| a l IH]; [reflexivity |].
    change ((a :: l).*1) with (a.1 :: l.*1). rewrite IH. reflexivity.
Qed.

(** An instance of [search_returns_at_most_limit]: of the two capitals the
    search with limit 1 returns the first of the sorted matches. *)
Lemma search_returns_at_most_limit_example :
  Z.of_nat (length [paris_result]) <= limit_or_default (Some 1) /\
  (exists rest,
     Array_sort by_score
       (matches parse (redis two_capitals) e1 0%float (cache_keys keyspace_of (redis two_capitals))) =
     ([paris_result] ++ rest)%list) /\
  (Z.of_nat (length (Array_sort by_score
       (matches parse (redis two_capitals) e1 0%float
          (cache_keys keyspace_of (redis two_capitals))))) <= limit_or_default (Some 1) ->
   [paris_result] =
   Array_sort by_score
     (matches parse (redis two_capitals) e1 0%float (cache_keys keyspace_of (redis two_capitals)))).
Proof.
  apply (search_returns_at_most_limit keyspace_of parse e1 0%float (Some 1)
           two_capitals two_capitals [paris_result]).
  - vm_compute. reflexivity.
  - vm_compute. discriminate.
Defined.

(** An instance of [search_ignores_other_keys]: a record under another
    prefix is not searched. *)
Lemma search_ignores_other_keys_example :
  searchSimilar keyspace_of parse e1 0%float None other_tenant = (Returned [], other_tenant).
Proof.
  apply (search_ignores_other_keys keyspace_of parse e1 0%float None other_tenant).
  - exact keyspace_of_enumerates.
  - reflexivity.
  - intros key [v Hv]. simpl in Hv. apply lookup_singleton_Some in Hv as [<- _]. reflexivity.
Defined.

Lemma paris_matches :
  matching_record parse (redis two_capitals) e1 (similarityThreshold default_cache)
    "cache:paris" (paris_at 1700000000000).
Proof.
  exists "{paris}". repeat split; try (vm_compute; reflexivity). discriminate.
Qed.

(** An instance of [lookup_hits_iff_a_record_matches]: Paris matches the
    question about France, so the lookup hits. *)
Lemma lookup_hits_iff_a_record_matches_example :
  (exists key e,
     matching_record parse (redis two_capitals) e1 (similarityThreshold default_cache) key e) /\
  (exists hit,
     fst (findSimilarCache keyspace_of parse embed default_cache france two_capitals) =
     Returned (Some hit)).
Proof.
  assert (H : exists key e,
             matching_record parse (redis two_capitals) e1 (similarityThreshold default_cache)
               key e)
    by (exists "cache:paris", (paris_at 1700000000000); exact paris_matches).
  split; [exact H |].
  apply (proj2 (lookup_hits_iff_a_record_matches keyspace_of parse embed default_cache france
                  two_capitals e1 keyspace_of_enumerates eq_refl eq_refl)).
  exact H.
Defined.

(** An instance of [lookup_returns_the_best_match]: of Paris and Rome the
    lookup for France returns Paris. *)
Lemma lookup_returns_the_best_match_example :
  (exists key,
     matching_record parse (redis two_capitals) e1 (similarityThreshold default_cache) key
       (paris_at 1700000000000)) /\
  1%float = cosineSimilarity e1 (embedding (paris_at 1700000000000)) /\
  forall key e,
    matching_record parse (redis two_capitals) e1 (similarityThreshold default_cache) key e ->
    Num.ge 1%float (cosineSimilarity e1 (embedding e)) = true.
Proof.
  apply (lookup_returns_the_best_match keyspace_of parse embed default_cache france
           two_capitals e1 (mkLookup (paris_at 1700000000000) 1%float)).
  - exact keyspace_of_enumerates.
  - reflexivity.
  - reflexivity.
  - vm_compute. reflexivity.
Defined.

(** An instance of [size_after_store]: a third record next to the two
    capitals. *)
Lemma size_after_store_example :
  exists n,
    getCacheSize keyspace_of two_capitals = (Returned n, two_capitals) /\
    fst (getCacheSize keyspace_of (snd (store keyspace_of stringify "lyon" lyon two_capitals))) =
    Returned (match redis two_capitals !! ("cache:" +:+ "lyon") with
              | Some _ => n
              | None => n + 1
              end).
Proof.
  apply (size_after_store keyspace_of stringify "lyon" lyon two_capitals).
  - exact keyspace_of_enumerates.
  - exact keyspace_of_enumerates_once.
  - reflexivity.
Defined.

(** An instance of [colliding_prompts_share_a_key]: ["Aa"] and ["BB"] have
    the same fingerprint, and so have the two questions. *)
Lemma colliding_prompts_share_a_key_example :
  key_at ("Is " +:+ "Aa" +:+ " a word?") 1700000000000 =
  key_at ("Is " +:+ "BB" +:+ " a word?") 1700000000000 /\
  redis (snd (cacheResponse keyspace_of stringify (constant_embedding e1)
                ("Is " +:+ "BB" +:+ " a word?") "no" LLAMA
                (snd (cacheResponse keyspace_of stringify (constant_embedding e1)
                        ("Is " +:+ "Aa" +:+ " a word?") "yes" LLAMA
                        (started_at 1700000000000))))) =
  <[key_at ("Is " +:+ "BB" +:+ " a word?") 1700000000000 :=
      stringify (mkEntry ("Is " +:+ "BB" +:+ " a word?") e1 "no" 1700000000000 LLAMA)]>
    (redis (started_at 1700000000000)).
Proof.
  apply (colliding_prompts_share_a_key keyspace_of stringify (constant_embedding e1)
           "Is " "Aa" "BB" " a word?" "yes" LLAMA "no" LLAMA (started_at 1700000000000) e1 e1);
    reflexivity.
Defined.

(** An instance of [chat_hit_answers_from_cache]: the question about
    France with Paris in the cache. *)
Lemma chat_hit_answers_from_cache_example :
  exists w',
    chat keyspace_of stringify parse embed (canned_text "Lutetia") parseFloat_of stuck_counter (mkEnv None)
      ask_france two_capitals =
    (Returned (JsonChat 200 (mkChat "Paris" true (Some 1%float) 1700000000000)), w') /\
    redis w' = redis two_capitals /\
    ai_calls w' = [EmbedCall EMBEDDING_MODEL france] /\
    CACHE_STATS w' = <["hits" := "1"]> ∅.
Proof.
  apply (chat_hit_answers_from_cache keyspace_of stringify parse embed (canned_text "Lutetia")
           parseFloat_of stuck_counter (mkEnv None) ask_france france two_capitals
           (mkLookup (paris_at 1700000000000) 1%float)).
  - reflexivity.
  - discriminate.
  - vm_compute. reflexivity.
Defined.

(** An instance of [chat_lookup_failure_is_an_error]: a prompt the
    embedding model fails on. *)
Lemma chat_lookup_failure_is_an_error_example :
  chat keyspace_of stringify parse embed (canned_text "Paris") parseFloat_of stuck_counter
    (mkEnv None) (mkRequest (Some "unknown") None None None) two_capitals =
  (Returned (JsonError 500 "Internal server error" (Some "embedding model unavailable")),
   with_ai_call (EmbedCall EMBEDDING_MODEL "unknown") two_capitals) /\
  (embed "unknown" = Thrown (AiError "embedding model unavailable") \/
   exists q statusText,
     embed "unknown" = Returned q /\ redis_status two_capitals = Some statusText /\
     AiError "embedding model unavailable" = RedisError statusText).
Proof.
  apply (chat_lookup_failure_is_an_error keyspace_of stringify parse embed (canned_text "Paris")
           parseFloat_of stuck_counter (mkEnv None) (mkRequest (Some "unknown") None None None) "unknown"
           two_capitals (AiError "embedding model unavailable")).
  - reflexivity.
  - discriminate.
  - vm_compute. reflexivity.
Defined.

(** An instance of [chat_miss_asks_and_caches]: a first question about
    France. *)
Lemma chat_miss_asks_and_caches_example :
  exists t w',
    chat keyspace_of stringify parse embed (canned_text "Paris") parseFloat_of stuck_counter (mkEnv None)
      ask_france (started_at 1700000000000) =
    (Returned (JsonChat 200 (mkChat "Paris" false None t)), w') /\
    redis w' = <[key_at france 1700000000000 := "{paris}"]> ∅ /\
    ai_calls w' = [EmbedCall EMBEDDING_MODEL france; ChatCall LLAMA france;
                   EmbedCall EMBEDDING_MODEL france] /\
    CACHE_STATS w' = <["misses" := "1"]> ∅.
Proof.
  apply (chat_miss_asks_and_caches keyspace_of stringify parse embed (canned_text "Paris")
           parseFloat_of stuck_counter (mkEnv None) ask_france france "Paris" (started_at 1700000000000) e1).
  - reflexivity.
  - discriminate.
  - reflexivity.
  - reflexivity.
  - vm_compute. reflexivity.
  - reflexivity.
Defined.

(** An instance of [chat_model_failure_counts_the_miss]: a first
    question with the text model down. *)
Lemma chat_model_failure_counts_the_miss_example :
  exists w',
    chat keyspace_of stringify parse embed (failing_text "model overloaded") parseFloat_of stuck_counter
      (mkEnv None) ask_france (started_at 1700000000000) =
    (Returned (JsonError 500 "Internal server error" (Some "model overloaded")), w') /\
    redis w' = ∅ /\
    CACHE_STATS w' = <["misses" := "1"]> ∅.
Proof.
  apply (chat_model_failure_counts_the_miss keyspace_of stringify parse embed
           (failing_text "model overloaded") parseFloat_of stuck_counter (mkEnv None) ask_france france
           (started_at 1700000000000) (AiError "model overloaded")).
  - reflexivity.
  - discriminate.
  - vm_compute. reflexivity.
  - reflexivity.
Defined.


(** An instance of [provider_spellings_agree]: [anthropic/claude-3-haiku]
    and [claude-3-haiku] both ask Anthropic for [claude-3-haiku]. *)
Lemma provider_spellings_agree_example :
  callModelGateway (canned_run "Paris") echo_provider ("anthropic/" +:+ HAIKU) france 256
    0x1.6666666666666p-1%float anthropic_gateway (started_at 1700000000000) =
  callModelGateway (canned_run "Paris") echo_provider HAIKU france 256
    0x1.6666666666666p-1%float anthropic_gateway (started_at 1700000000000).
Proof.
  apply (provider_spellings_agree (canned_run "Paris") echo_provider "anthropic/" "claude-"
           HAIKU france 256 0x1.6666666666666p-1%float anthropic_gateway
           (started_at 1700000000000)).
  - left. reflexivity.
  - reflexivity.
Defined.

(** An instance of [chat_gateway_agrees_on_workers_ai]: a request that
    names no model, with no gateway. *)
Lemma chat_gateway_agrees_on_workers_ai_example :
  chat_gateway keyspace_of stringify parse embed parseFloat_of stuck_counter (canned_run "Paris") echo_provider
    (mkEnv None) no_gateway ask_france (started_at 1700000000000) =
  chat keyspace_of stringify parse embed (canned_text "Paris") parseFloat_of stuck_counter (mkEnv None)
    ask_france (started_at 1700000000000).
Proof.
  apply (chat_gateway_agrees_on_workers_ai keyspace_of stringify parse embed
           (canned_text "Paris") parseFloat_of stuck_counter (canned_run "Paris") echo_provider (mkEnv None)
           no_gateway ask_france (started_at 1700000000000)).
  - reflexivity.
  - reflexivity.
  - reflexivity.
Defined.

(** An instance of [chat_gateway_differs_only_on_a_miss]: a hit for a
    model of a provider without a key. *)
Lemma chat_gateway_differs_only_on_a_miss_example :
  chat_gateway keyspace_of stringify parse embed parseFloat_of stuck_counter (canned_run "Lutetia")
    echo_provider (mkEnv None) no_gateway ask_haiku two_capitals =
  chat keyspace_of stringify parse embed (canned_text "Lutetia") parseFloat_of stuck_counter (mkEnv None)
    ask_haiku two_capitals.
Proof.
  apply (chat_gateway_differs_only_on_a_miss keyspace_of stringify parse embed
           (canned_text "Lutetia") parseFloat_of stuck_counter (canned_run "Lutetia") echo_provider
           (mkEnv None) no_gateway ask_haiku two_capitals).
  intros p Hp _. injection Hp as <-. vm_compute. discriminate.
Defined.

(** An instance of [chat_gateway_unconfigured_provider]: a first question
    for Claude with no key for Anthropic. *)
Lemma chat_gateway_unconfigured_provider_example :
  exists w',
    chat_gateway keyspace_of stringify parse embed parseFloat_of stuck_counter (canned_run "Paris")
      echo_provider (mkEnv None) no_gateway ask_haiku (started_at 1700000000000) =
    (Returned (JsonError 500 "Internal server error"
                 (Some "API key not configured for provider: anthropic")), w') /\
    In "anthropic" ["anthropic"; "openai"; "google"] /\
    redis w' = ∅ /\
    ai_calls w' = [EmbedCall EMBEDDING_MODEL france] /\
    CACHE_STATS w' = <["misses" := "1"]> ∅.
Proof.
  apply (chat_gateway_unconfigured_provider keyspace_of stringify parse embed parseFloat_of stuck_counter
           (canned_run "Paris") echo_provider (mkEnv None) no_gateway ask_haiku france
           "anthropic" (started_at 1700000000000)).
  - reflexivity.
  - discriminate.
  - vm_compute. reflexivity.
  - reflexivity.
  - reflexivity.
Defined.

(** An instance of [chat_gateway_outside_provider_miss]: a first question
    answered by Anthropic through the gateway. *)
Lemma chat_gateway_outside_provider_miss_example :
  exists t w',
    chat_gateway keyspace_of stringify parse embed parseFloat_of stuck_counter (canned_run "Paris")
      echo_provider (mkEnv None) anthropic_gateway ask_haiku (started_at 1700000000000) =
    (Returned (JsonChat 200 (mkChat HAIKU false None t)), w') /\
    redis w' =
    <[key_at france 1700000000000 := stringify (mkEntry france e1 HAIKU 1700000000000 HAIKU)]> ∅ /\
    ai_calls w' = [EmbedCall EMBEDDING_MODEL france; EmbedCall EMBEDDING_MODEL france] /\
    CACHE_STATS w' = <["misses" := "1"]> ∅.
Proof.
  apply (chat_gateway_outside_provider_miss keyspace_of stringify parse embed parseFloat_of stuck_counter
           (canned_run "Paris") echo_provider (mkEnv None) anthropic_gateway ask_haiku france
           HAIKU (started_at 1700000000000) e1).
  - reflexivity.
  - discriminate.
  - reflexivity.
  - reflexivity.
  - vm_compute. reflexivity.
  - reflexivity.
  - reflexivity.
Defined.

(** An instance of [chat_gateway_hit_ignores_the_model]: Paris, cached for
    Llama, is served to a request for Claude. *)
Lemma chat_gateway_hit_ignores_the_model_example :
  chat_gateway keyspace_of stringify parse embed parseFloat_of stuck_counter (canned_run "Lutetia")
    echo_provider (mkEnv None) anthropic_gateway ask_france two_capitals =
  chat_gateway keyspace_of stringify parse embed parseFloat_of stuck_counter (canned_run "Lutetia")
    echo_provider (mkEnv None) anthropic_gateway
    (mkRequest (Some france) (Some HAIKU) (Some 16) (Some 0%float)) two_capitals.
Proof.
  apply (chat_gateway_hit_ignores_the_model keyspace_of stringify parse embed parseFloat_of stuck_counter
           (canned_run "Lutetia") echo_provider (mkEnv None) anthropic_gateway ask_france
           (mkRequest (Some france) (Some HAIKU) (Some 16) (Some 0%float)) two_capitals).
  - reflexivity.
  - intros p Hp _. injection Hp as <-. vm_compute. discriminate.
Defined.
